(** * Soft Serve Terraform provider: parser, client and reconcilers

    A shallow embedding of the Go sources of the provider
    (internal/ssh/parser.go, internal/ssh/client.go and the resource
    reconcilers under internal/resource) together with the properties
    of the specification that concern them.

    Go strings are modelled as [string] (sequences of bytes).  The
    functions of the Go [strings] package that the parser uses are
    written out below; white space is the ASCII white space of Go's
    [asciiSpace] table, bytes above 127 are never white space. *)

From stdpp Require Import base strings list gmap.
From Stdlib Require Import Ascii ZArith Lia Sorted.

Local Open Scope string_scope.
Local Open Scope Z_scope.
Local Open Scope list_scope.

(** ** The Go [strings] functions used by the provider *)
Module GoStrings.

(** Go's [error], built by [fmt.Errorf]; [Error] is [err.Error()]. *)
Inductive error := Errorf (msg : string).
Definition Error (e : error) : string :=
  match e with Errorf msg => msg end.

Definition nl : ascii := "010"%char.

(** [asciiSpace] of the Go runtime: tab, newline, vertical tab, form
    feed, carriage return and space. *)
Definition isSpace (c : ascii) : bool :=
  Ascii.eqb c "009" || Ascii.eqb c "010" || Ascii.eqb c "011" ||
  Ascii.eqb c "012" || Ascii.eqb c "013" || Ascii.eqb c " ".

(** [strings.Split(s, "\n")]: never returns an empty slice. *)
Fixpoint Split_nl (s : string) : list string :=
  match s with
  | EmptyString => [EmptyString]
  | String c r =>
      if Ascii.eqb c nl then EmptyString :: Split_nl r
      else match Split_nl r with
           | h :: t => String c h :: t
           | [] => [String c EmptyString]
           end
  end.

Fixpoint TrimLeftSpace (s : string) : string :=
  match s with
  | EmptyString => EmptyString
  | String c r => if isSpace c then TrimLeftSpace r else s
  end.

Fixpoint TrimRightSpace (s : string) : string :=
  match s with
  | EmptyString => EmptyString
  | String c r =>
      match TrimRightSpace r with
      | EmptyString => if isSpace c then EmptyString else String c EmptyString
      | r' => String c r'
      end
  end.

(** [strings.TrimSpace] *)
Definition TrimSpace (s : string) : string := TrimRightSpace (TrimLeftSpace s).

(** [strings.TrimRight(s, "\n")] *)
Fixpoint TrimRight_nl (s : string) : string :=
  match s with
  | EmptyString => EmptyString
  | String c r =>
      match TrimRight_nl r with
      | EmptyString => if Ascii.eqb c nl then EmptyString else String c EmptyString
      | r' => String c r'
      end
  end.

(** [strings.HasPrefix] *)
Fixpoint HasPrefix (s pre : string) : bool :=
  match pre with
  | EmptyString => true
  | String p pre' =>
      match s with
      | EmptyString => false
      | String c r => Ascii.eqb c p && HasPrefix r pre'
      end
  end.

(** [strings.Index]: byte offset of the first occurrence, or -1. *)
Fixpoint Index (s sub : string) : Z :=
  if HasPrefix s sub then 0
  else match s with
       | EmptyString => -1
       | String _ r => let i := Index r sub in if i <? 0 then -1 else i + 1
       end.

(** [strings.Contains] *)
Definition Contains (s sub : string) : bool := 0 <=? Index s sub.

(** [strings.HasSuffix] *)
Fixpoint HasSuffix (s suf : string) : bool :=
  String.eqb s suf ||
  match s with
  | EmptyString => false
  | String _ r => HasSuffix r suf
  end.

(** [strings.TrimSuffix] *)
Fixpoint TrimSuffix (s suf : string) : string :=
  if String.eqb s suf then EmptyString
  else match s with
       | EmptyString => EmptyString
       | String c r => if HasSuffix r suf then String c (TrimSuffix r suf) else s
       end.

(** [strings.Fields]: the maximal runs of non-space bytes. *)
Fixpoint Fields (s : string) : list string :=
  match s with
  | EmptyString => []
  | String c r =>
      if isSpace c then Fields r
      else match r with
           | EmptyString => [String c EmptyString]
           | String c' _ =>
               if isSpace c' then String c EmptyString :: Fields r
               else match Fields r with
                    | h :: t => String c h :: t
                    | [] => [String c EmptyString]
                    end
           end
  end.

(** The slices [s[:n]] and [s[n:]]. *)
Definition slice_to (s : string) (n : Z) : string :=
  String.substring 0 (Z.to_nat n) s.
Definition slice_from (s : string) (n : Z) : string :=
  String.substring (Z.to_nat n) (String.length s - Z.to_nat n) s.

(** [strings.SplitN(s, "/", 2)]: the part before the first ["/"] and
    the rest, or the string alone when it has no ["/"]. *)
Fixpoint cutSlash (s : string) : option (string * string) :=
  match s with
  | EmptyString => None
  | String c r =>
      if Ascii.eqb c "/" then Some (EmptyString, r)
      else match cutSlash r with
           | Some (a, b) => Some (String c a, b)
           | None => None
           end
  end.

Definition SplitN_slash_2 (s : string) : list string :=
  match cutSlash s with
  | Some (a, b) => [a; b]
  | None => [s]
  end.

End GoStrings.

(** ** internal/ssh/parser.go *)
Module Parser.
Import GoStrings.

Record RepoInfoResult := {
  ProjectName : string;
  Repository : string;
  Description : string;
  Private : bool;
  Hidden : bool;
  Mirror : bool;
  Owner : string
}.

Record UserInfoResult := {
  Username : string;
  Admin : bool;
  PublicKeys : list string
}.

Record CollabEntry := {
  CUsername : string;
  AccessLevel : string
}.

Record keyValue := { key : string; value : string }.

Definition parseKeyValue (line : string) : string * string * bool :=
  let idx := Index line ": " in
  if idx <? 0 then
    if HasSuffix (TrimSpace line) ":" then
      (TrimSuffix (TrimSpace line) ":", "", true)
    else ("", "", false)
  else
    (TrimSpace (slice_to line idx), TrimSpace (slice_from line (idx + 2)), true).

Fixpoint parseKeyValues_lines (lines : list string) : list keyValue :=
  match lines with
  | [] => []
  | line :: rest =>
      match parseKeyValue line with
      | (k, v, true) => {| key := k; value := v |} :: parseKeyValues_lines rest
      | (_, _, false) => parseKeyValues_lines rest
      end
  end.

Definition parseKeyValues (output : string) : list keyValue :=
  parseKeyValues_lines (Split_nl output).

Definition emptyRepoInfo : RepoInfoResult :=
  {| ProjectName := ""; Repository := ""; Description := ""; Private := false;
     Hidden := false; Mirror := false; Owner := "" |}.

(** The body of the [switch kv.key] of ParseRepoInfo. *)
Definition repoAssign (result : RepoInfoResult) (kv : keyValue) : RepoInfoResult :=
  let v := value kv in
  if String.eqb (key kv) "Project Name" then
    {| ProjectName := v; Repository := Repository result; Description := Description result;
       Private := Private result; Hidden := Hidden result; Mirror := Mirror result;
       Owner := Owner result |}
  else if String.eqb (key kv) "Repository" then
    {| ProjectName := ProjectName result; Repository := v; Description := Description result;
       Private := Private result; Hidden := Hidden result; Mirror := Mirror result;
       Owner := Owner result |}
  else if String.eqb (key kv) "Description" then
    {| ProjectName := ProjectName result; Repository := Repository result; Description := v;
       Private := Private result; Hidden := Hidden result; Mirror := Mirror result;
       Owner := Owner result |}
  else if String.eqb (key kv) "Private" then
    {| ProjectName := ProjectName result; Repository := Repository result;
       Description := Description result;
       Private := String.eqb v "true"; Hidden := Hidden result; Mirror := Mirror result;
       Owner := Owner result |}
  else if String.eqb (key kv) "Hidden" then
    {| ProjectName := ProjectName result; Repository := Repository result;
       Description := Description result;
       Private := Private result; Hidden := String.eqb v "true"; Mirror := Mirror result;
       Owner := Owner result |}
  else if String.eqb (key kv) "Mirror" then
    {| ProjectName := ProjectName result; Repository := Repository result;
       Description := Description result;
       Private := Private result; Hidden := Hidden result; Mirror := String.eqb v "true";
       Owner := Owner result |}
  else if String.eqb (key kv) "Owner" then
    {| ProjectName := ProjectName result; Repository := Repository result;
       Description := Description result;
       Private := Private result; Hidden := Hidden result; Mirror := Mirror result;
       Owner := v |}
  else result.

Definition ParseRepoInfo (output : string) : RepoInfoResult + error :=
  let kvs := parseKeyValues output in
  let result := fold_left repoAssign kvs emptyRepoInfo in
  if String.eqb (Repository result) "" then
    inr (Errorf "failed to parse repo info: missing Repository field")
  else inl result.

(** The loop state of ParseUserInfo: the result under construction and
    the [inPublicKeys] flag. *)
Record userScan := {
  uName : string;
  uAdmin : bool;
  uKeys : list string;
  inPublicKeys : bool
}.

Definition userScan0 : userScan :=
  {| uName := ""; uAdmin := false; uKeys := []; inPublicKeys := false |}.

(** The key-value part of the loop body (below the [inPublicKeys] block). *)
Definition userKeyValue (st : userScan) (line : string) : userScan :=
  match parseKeyValue line with
  | (_, _, false) => st
  | (k, v, true) =>
      if String.eqb k "Username" then
        {| uName := v; uAdmin := uAdmin st; uKeys := uKeys st;
           inPublicKeys := inPublicKeys st |}
      else if String.eqb k "Admin" then
        {| uName := uName st; uAdmin := String.eqb v "true"; uKeys := uKeys st;
           inPublicKeys := inPublicKeys st |}
      else if String.eqb k "Public keys" then
        {| uName := uName st; uAdmin := uAdmin st; uKeys := uKeys st;
           inPublicKeys := true |}
      else st
  end.

(** One iteration of [for _, line := range lines]. *)
Definition userStep (st : userScan) (line : string) : userScan :=
  if inPublicKeys st then
    let trimmed := TrimSpace line in
    if negb (String.eqb trimmed "") then
      if negb (HasPrefix line "  ") && Contains line ": " then
        userKeyValue {| uName := uName st; uAdmin := uAdmin st; uKeys := uKeys st;
                        inPublicKeys := false |} line
      else
        {| uName := uName st; uAdmin := uAdmin st; uKeys := uKeys st ++ [trimmed];
           inPublicKeys := true |}
    else st
  else userKeyValue st line.

Definition userLoop (lines : list string) (st : userScan) : userScan :=
  fold_left userStep lines st.

Definition userFinish (st : userScan) : UserInfoResult + error :=
  if String.eqb (uName st) "" then
    inr (Errorf "failed to parse user info: missing Username field")
  else inl {| Username := uName st; Admin := uAdmin st; PublicKeys := uKeys st |}.

Definition ParseUserInfo (output : string) : UserInfoResult + error :=
  userFinish (userLoop (Split_nl output) userScan0).

(** The loop body of ParseCollabList, appending to [entries]. *)
Definition collabStep (entries : list CollabEntry) (line0 : string) : list CollabEntry :=
  let line := TrimSpace line0 in
  if String.eqb line "" then entries
  else
    let parts := Fields line in
    match parts with
    | [] => entries
    | p0 :: ps =>
        let level := match ps with p1 :: _ => p1 | [] => "" end in
        entries ++ [{| CUsername := p0; AccessLevel := level |}]
    end.

Definition ParseCollabList (output : string) : list CollabEntry * option error :=
  if String.eqb (TrimSpace output) "" then ([], None)
  else (fold_left collabStep (Split_nl output) [], None).

End Parser.

(** ** The framework values the resources read and write

    [types.String], [types.Bool] and [types.Set] of
    terraform-plugin-framework, as far as the resources use them: a value
    is null, unknown or known; [ValueString] and [ValueBool] give the zero
    value for a null or unknown one; [Equal] compares the state and, for
    known values, the content.  For sets [Equal] is the framework's: equal
    lengths and every element of the receiver contained in the other. *)
Module Tf.

Inductive TfString := StringNull | StringUnknown | StringValue (s : string).
Inductive TfBool := BoolNull | BoolUnknown | BoolValue (b : bool).
Inductive TfSet := SetNull | SetUnknown | SetValue (elements : list string).

Definition String_IsNull (v : TfString) : bool :=
  match v with StringNull => true | _ => false end.
Definition String_IsUnknown (v : TfString) : bool :=
  match v with StringUnknown => true | _ => false end.
Definition ValueString (v : TfString) : string :=
  match v with StringValue s => s | _ => "" end.
Definition String_Equal (v o : TfString) : bool :=
  match v, o with
  | StringNull, StringNull => true
  | StringUnknown, StringUnknown => true
  | StringValue a, StringValue b => String.eqb a b
  | _, _ => false
  end.

Definition ValueBool (v : TfBool) : bool :=
  match v with BoolValue b => b | _ => false end.
Definition Bool_IsNull (v : TfBool) : bool :=
  match v with BoolNull => true | _ => false end.
Definition Bool_IsUnknown (v : TfBool) : bool :=
  match v with BoolUnknown => true | _ => false end.
Definition Bool_Equal (v o : TfBool) : bool :=
  match v, o with
  | BoolNull, BoolNull => true
  | BoolUnknown, BoolUnknown => true
  | BoolValue a, BoolValue b => Bool.eqb a b
  | _, _ => false
  end.

Definition contains (l : list string) (x : string) : bool :=
  existsb (String.eqb x) l.

Definition Set_IsNull (v : TfSet) : bool :=
  match v with SetNull => true | _ => false end.
Definition Set_IsUnknown (v : TfSet) : bool :=
  match v with SetUnknown => true | _ => false end.
Definition Set_Equal (v o : TfSet) : bool :=
  match v, o with
  | SetNull, SetNull => true
  | SetUnknown, SetUnknown => true
  | SetValue a, SetValue b =>
      (List.length a =? List.length b)%nat && forallb (contains b) a
  | _, _ => false
  end.

Record Diagnostic := { Summary : string; Detail : string }.
Definition Diagnostics := list Diagnostic.

Definition AddError (d : Diagnostics) (summary detail : string) : Diagnostics :=
  (d ++ [{| Summary := summary; Detail := detail |}])%list.
Definition HasError (d : Diagnostics) : bool :=
  match d with [] => false | _ => true end.

(** [ElementsAs(ctx, &keys, false)] into a [[]string]: the elements of a
    known set, nothing for a null one, a conversion error for an unknown
    one. *)
Definition ElementsAs (v : TfSet) : list string * Diagnostics :=
  match v with
  | SetValue l => (l, [])
  | SetNull => ([], [])
  | SetUnknown =>
      ([], [{| Summary := "Value Conversion Error";
               Detail := "unhandled unknown value" |}])
  end.

(** What a resource method leaves in its response: the diagnostics and
    the state written by [resp.State.Set], if it got that far. *)
Record Response (Model : Type) := {
  RDiagnostics : Diagnostics;
  RState : option Model
}.
Arguments RDiagnostics {Model} _.
Arguments RState {Model} _.

End Tf.

(** ** internal/ssh/client.go: command execution *)
Module Client.
Import GoStrings.
Export Tf.

(** What lies outside the program.  [quote] is the [%q] verb of [fmt]
    (strconv.Quote).  [remote sent command] is the outcome of dialling,
    opening a session and running [command] when the commands [sent] have
    been run before: the captured stdout, or the error [Run] returns.
    [rangeOrder] is the order in which [range] visits the keys of a Go
    map. *)
Record Env := {
  quote : string -> string;
  remote : list string -> string -> string + error;
  rangeOrder : gset string -> list string
}.

(** A computation that runs commands: it extends the list of the
    commands sent so far. *)
Definition M (A : Type) : Type := list string -> A * list string.
Definition ret {A} (a : A) : M A := fun sent => (a, sent).
Definition bind {A B} (m : M A) (k : A -> M B) : M B :=
  fun sent => let '(a, sent') := m sent in k a sent'.

Declare Scope cmd_scope.
Delimit Scope cmd_scope with cmd.
Notation "x <- m ;; k" := (bind m (fun x => k))
  (at level 100, m at next level, right associativity) : cmd_scope.
Local Open Scope cmd_scope.

Definition fmt_bool (b : bool) : string := if b then "true" else "false".

Definition Run (env : Env) (command : string) : M (string * option error) :=
  fun sent =>
    match remote env sent command with
    | inr err => (("", Some err), (sent ++ [command])%list)
    | inl stdout => ((TrimRight_nl stdout, None), (sent ++ [command])%list)
    end.

(** A command whose output is dropped: [_, err := c.Run(cmd); return err]. *)
Definition run_ (env : Env) (cmd : string) : M (option error) :=
  r <- Run env cmd ;; ret (snd r).

Record RepoCreateOpts := {
  optDescription : string;
  optProjectName : string;
  optPrivate : bool
}.

Definition RepoCreate_cmd (env : Env) (name : string) (opts : RepoCreateOpts) : string :=
  let cmd := "repo create " +:+ name in
  let cmd := if negb (String.eqb (optDescription opts) "")
             then cmd +:+ " -d " +:+ quote env (optDescription opts) else cmd in
  let cmd := if negb (String.eqb (optProjectName opts) "")
             then cmd +:+ " -n " +:+ quote env (optProjectName opts) else cmd in
  let cmd := if optPrivate opts then cmd +:+ " -p" else cmd in
  cmd.

Definition RepoCreate (env : Env) (name : string) (opts : RepoCreateOpts) : M (option error) :=
  run_ env (RepoCreate_cmd env name opts).

Definition RepoInfo (env : Env) (name : string) : M (Parser.RepoInfoResult + error) :=
  r <- Run env ("repo info " +:+ name) ;;
  match snd r with
  | Some e => ret (inr e)
  | None => ret (Parser.ParseRepoInfo (fst r))
  end.

Definition RepoDelete (env : Env) (name : string) : M (option error) :=
  run_ env ("repo delete " +:+ name).

Definition RepoSetDescription (env : Env) (name description : string) : M (option error) :=
  run_ env ("repo description " +:+ name +:+ " " +:+ quote env description).

Definition RepoSetPrivate (env : Env) (name : string) (private : bool) : M (option error) :=
  run_ env ("repo private " +:+ name +:+ " " +:+ fmt_bool private).

Definition RepoSetHidden (env : Env) (name : string) (hidden : bool) : M (option error) :=
  run_ env ("repo hidden " +:+ name +:+ " " +:+ fmt_bool hidden).

Definition RepoSetProjectName (env : Env) (name projectName : string) : M (option error) :=
  run_ env ("repo project-name " +:+ name +:+ " " +:+ quote env projectName).

Definition UserInfo (env : Env) (username : string) : M (Parser.UserInfoResult + error) :=
  r <- Run env ("user info " +:+ username) ;;
  match snd r with
  | Some e => ret (inr e)
  | None => ret (Parser.ParseUserInfo (fst r))
  end.

Definition UserSetAdmin (env : Env) (username : string) (admin : bool) : M (option error) :=
  run_ env ("user set-admin " +:+ username +:+ " " +:+ fmt_bool admin).

Definition UserAddPublicKey (env : Env) (username key : string) : M (option error) :=
  run_ env ("user add-pubkey " +:+ username +:+ " " +:+ quote env key).

Definition UserRemovePublicKey (env : Env) (username key : string) : M (option error) :=
  run_ env ("user remove-pubkey " +:+ username +:+ " " +:+ quote env key).

Definition CollabList (env : Env) (repo : string) : M (list Parser.CollabEntry * option error) :=
  r <- Run env ("repo collab list " +:+ repo) ;;
  match snd r with
  | Some e => ret ([], Some e)
  | None => ret (Parser.ParseCollabList (fst r))
  end.

Record UserCreateOpts := {
  optAdmin : bool;
  optPublicKeys : list string
}.

Definition UserCreate_cmd (env : Env) (username : string) (opts : UserCreateOpts) : string :=
  let cmd := "user create " +:+ username in
  let cmd := if optAdmin opts then cmd +:+ " -a" else cmd in
  fold_left (fun cmd key => cmd +:+ " -k " +:+ quote env key) (optPublicKeys opts) cmd.

Definition UserCreate (env : Env) (username : string) (opts : UserCreateOpts) : M (option error) :=
  run_ env (UserCreate_cmd env username opts).

Definition UserDelete (env : Env) (username : string) : M (option error) :=
  run_ env ("user delete " +:+ username).

Definition CollabAdd_cmd (repo username accessLevel : string) : string :=
  let cmd := "repo collab add " +:+ repo +:+ " " +:+ username in
  if negb (String.eqb accessLevel "") then cmd +:+ " " +:+ accessLevel else cmd.

Definition CollabAdd (env : Env) (repo username accessLevel : string) : M (option error) :=
  run_ env (CollabAdd_cmd repo username accessLevel).

Definition CollabRemove (env : Env) (repo username : string) : M (option error) :=
  run_ env ("repo collab remove " +:+ repo +:+ " " +:+ username).

Definition SettingsGetAllowKeyless (env : Env) : M (bool * option error) :=
  r <- Run env "settings allow-keyless" ;;
  match snd r with
  | Some e => ret (false, Some e)
  | None => ret (String.eqb (TrimSpace (fst r)) "true", None)
  end.

Definition SettingsSetAllowKeyless (env : Env) (allow : bool) : M (option error) :=
  run_ env ("settings allow-keyless " +:+ fmt_bool allow).

Definition SettingsGetAnonAccess (env : Env) : M (string * option error) :=
  r <- Run env "settings anon-access" ;;
  match snd r with
  | Some e => ret ("", Some e)
  | None => ret (TrimSpace (fst r), None)
  end.

Definition SettingsSetAnonAccess (env : Env) (level : string) : M (option error) :=
  run_ env ("settings anon-access " +:+ level).

End Client.

(** ** internal/resource/repository.go *)
Module RepositoryResource.
Import GoStrings Client.
Local Open Scope cmd_scope.

Record Model := {
  ID : TfString;
  Name : TfString;
  Description : TfString;
  ProjectName : TfString;
  Private : TfBool;
  Hidden : TfBool
}.

Definition readRepoState (env : Env) (name : string) (model : Model) : M (Diagnostics * Model) :=
  info <- RepoInfo env name ;;
  match info with
  | inr err => ret (AddError [] "Error reading repository" (Error err), model)
  | inl info =>
      ret ([], {| ID := StringValue name;
                  Name := StringValue (Parser.Repository info);
                  Description := StringValue (Parser.Description info);
                  ProjectName := StringValue (Parser.ProjectName info);
                  Private := BoolValue (Parser.Private info);
                  Hidden := BoolValue (Parser.Hidden info) |})
  end.

(** The tail shared by Create, Update and ImportState: read the state
    back and, without errors, store it. *)
Definition readAndSet (env : Env) (name : string) (plan : Model) : M (Response Model) :=
  r <- readRepoState env name plan ;;
  if HasError (fst r) then ret {| RDiagnostics := fst r; RState := None |}
  else ret {| RDiagnostics := fst r; RState := Some (snd r) |}.

Definition failed (summary : string) (err : error) : M (Response Model) :=
  ret {| RDiagnostics := AddError [] summary (Error err); RState := None |}.

Definition Create (env : Env) (plan : Model) : M (Response Model) :=
  let name := ValueString (Name plan) in
  let opts := {| optDescription :=
                   if negb (String_IsNull (Description plan)) &&
                      negb (String_IsUnknown (Description plan))
                   then ValueString (Description plan) else "";
                 optProjectName :=
                   if negb (String_IsNull (ProjectName plan)) &&
                      negb (String_IsUnknown (ProjectName plan))
                   then ValueString (ProjectName plan) else "";
                 optPrivate := ValueBool (Private plan) |} in
  err <- RepoCreate env name opts ;;
  match err with
  | Some e => failed "Error creating repository" e
  | None =>
      err <- (if ValueBool (Hidden plan) then RepoSetHidden env name true else ret None) ;;
      match err with
      | Some e => failed "Error setting repository hidden" e
      | None => readAndSet env name plan
      end
  end.

Definition Update (env : Env) (plan state : Model) : M (Response Model) :=
  let name := ValueString (Name plan) in
  err <- (if negb (String_Equal (Description plan) (Description state)) then
            let desc := if negb (String_IsNull (Description plan))
                        then ValueString (Description plan) else "" in
            RepoSetDescription env name desc
          else ret None) ;;
  match err with
  | Some e => failed "Error updating description" e
  | None =>
  err <- (if negb (String_Equal (ProjectName plan) (ProjectName state)) then
            let pn := if negb (String_IsNull (ProjectName plan))
                      then ValueString (ProjectName plan) else "" in
            RepoSetProjectName env name pn
          else ret None) ;;
  match err with
  | Some e => failed "Error updating project name" e
  | None =>
  err <- (if negb (Bool_Equal (Private plan) (Private state)) then
            RepoSetPrivate env name (ValueBool (Private plan))
          else ret None) ;;
  match err with
  | Some e => failed "Error updating private" e
  | None =>
  err <- (if negb (Bool_Equal (Hidden plan) (Hidden state)) then
            RepoSetHidden env name (ValueBool (Hidden plan))
          else ret None) ;;
  match err with
  | Some e => failed "Error updating hidden" e
  | None => readAndSet env name plan
  end end end end.

Definition Read (env : Env) (state : Model) : M (Response Model) :=
  readAndSet env (ValueString (Name state)) state.

(** Delete leaves diagnostics only; the framework drops the state when
    there is none. *)
Definition Delete (env : Env) (state : Model) : M Diagnostics :=
  err <- RepoDelete env (ValueString (Name state)) ;;
  match err with
  | Some e => ret (AddError [] "Error deleting repository" (Error e))
  | None => ret []
  end.

(** [var model RepositoryResourceModel]: every attribute null. *)
Definition zeroModel : Model :=
  {| ID := StringNull; Name := StringNull; Description := StringNull;
     ProjectName := StringNull; Private := BoolNull; Hidden := BoolNull |}.

Definition ImportState (env : Env) (id : string) : M (Response Model) :=
  let model := {| ID := ID zeroModel; Name := StringValue id;
                  Description := Description zeroModel;
                  ProjectName := ProjectName zeroModel;
                  Private := Private zeroModel; Hidden := Hidden zeroModel |} in
  readAndSet env id model.

End RepositoryResource.

(** ** internal/resource/user.go *)
Module UserResource.
Import GoStrings Client.
Local Open Scope cmd_scope.

Record Model := {
  ID : TfString;
  Username : TfString;
  Admin : TfBool;
  PublicKeys : TfSet
}.

(** [map[string]struct{}] as a finite set of strings. *)
Fixpoint toStringSet (s : list string) : gset string :=
  match s with
  | [] => ∅
  | v :: rest => {[ v ]} ∪ toStringSet rest
  end.

(** [sort.Strings]: insertion into the byte-wise lexicographic order. *)
Fixpoint insertSorted (k : string) (l : list string) : list string :=
  match l with
  | [] => [k]
  | x :: r => if String.leb k x then k :: l else x :: insertSorted k r
  end.
Definition sortStrings (l : list string) : list string :=
  fold_right insertSorted [] l.

Definition readUserState (env : Env) (username : string) (model : Model) : M (Diagnostics * Model) :=
  info <- UserInfo env username ;;
  match info with
  | inr err => ret (AddError [] "Error reading user" (Error err), model)
  | inl info =>
      let keys :=
        match Parser.PublicKeys info with
        | _ :: _ => SetValue (sortStrings (Parser.PublicKeys info))
        | [] => if negb (Set_IsNull (PublicKeys model)) then SetValue []
                else PublicKeys model
        end in
      ret ([], {| ID := StringValue username;
                  Username := StringValue (Parser.Username info);
                  Admin := BoolValue (Parser.Admin info);
                  PublicKeys := keys |})
  end.

Definition readAndSet (env : Env) (username : string) (plan : Model) : M (Response Model) :=
  r <- readUserState env username plan ;;
  if HasError (fst r) then ret {| RDiagnostics := fst r; RState := None |}
  else ret {| RDiagnostics := fst r; RState := Some (snd r) |}.

Definition failed (summary : string) (err : error) : M (Response Model) :=
  ret {| RDiagnostics := AddError [] summary (Error err); RState := None |}.

(** [for key := range stateSet { if _, ok := planSet[key]; !ok { remove } }],
    over the keys in the order [range] visits them; stops at the first
    error. *)
Fixpoint removeLoop (env : Env) (username : string) (keys : list string)
    (planSet : gset string) : M (option error) :=
  match keys with
  | [] => ret None
  | key :: rest =>
      if bool_decide (key ∈ planSet) then removeLoop env username rest planSet
      else
        err <- UserRemovePublicKey env username key ;;
        match err with
        | Some e => ret (Some e)
        | None => removeLoop env username rest planSet
        end
  end.

(** [for key := range planSet { if _, ok := stateSet[key]; !ok { add } }] *)
Fixpoint addLoop (env : Env) (username : string) (keys : list string)
    (stateSet : gset string) : M (option error) :=
  match keys with
  | [] => ret None
  | key :: rest =>
      if bool_decide (key ∈ stateSet) then addLoop env username rest stateSet
      else
        err <- UserAddPublicKey env username key ;;
        match err with
        | Some e => ret (Some e)
        | None => addLoop env username rest stateSet
        end
  end.

Definition Update (env : Env) (plan state : Model) : M (Response Model) :=
  let username := ValueString (Username plan) in
  err <- (if negb (Bool_Equal (Admin plan) (Admin state)) then
            UserSetAdmin env username (ValueBool (Admin plan))
          else ret None) ;;
  match err with
  | Some e => failed "Error updating admin status" e
  | None =>
      if negb (Set_Equal (PublicKeys plan) (PublicKeys state)) then
        let '(planKeys, d1) :=
          if negb (Set_IsNull (PublicKeys plan)) then ElementsAs (PublicKeys plan)
          else ([], []) in
        let '(stateKeys, d2) :=
          if negb (Set_IsNull (PublicKeys state)) then ElementsAs (PublicKeys state)
          else ([], []) in
        if HasError (d1 ++ d2)%list then
          ret {| RDiagnostics := (d1 ++ d2)%list; RState := None |}
        else
          let planSet := toStringSet planKeys in
          let stateSet := toStringSet stateKeys in
          err <- removeLoop env username (rangeOrder env stateSet) planSet ;;
          match err with
          | Some e => failed "Error removing public key" e
          | None =>
              err <- addLoop env username (rangeOrder env planSet) stateSet ;;
              match err with
              | Some e => failed "Error adding public key" e
              | None => readAndSet env username plan
              end
          end
      else readAndSet env username plan
  end.

Definition Create (env : Env) (plan : Model) : M (Response Model) :=
  let username := ValueString (Username plan) in
  let '(keys, d) :=
    if negb (Set_IsNull (PublicKeys plan)) && negb (Set_IsUnknown (PublicKeys plan))
    then ElementsAs (PublicKeys plan) else ([], []) in
  if HasError d then ret {| RDiagnostics := d; RState := None |}
  else
    let opts := {| optAdmin := ValueBool (Admin plan); optPublicKeys := keys |} in
    err <- UserCreate env username opts ;;
    match err with
    | Some e => failed "Error creating user" e
    | None => readAndSet env username plan
    end.

Definition Read (env : Env) (state : Model) : M (Response Model) :=
  readAndSet env (ValueString (Username state)) state.

Definition Delete (env : Env) (state : Model) : M Diagnostics :=
  err <- UserDelete env (ValueString (Username state)) ;;
  match err with
  | Some e => ret (AddError [] "Error deleting user" (Error e))
  | None => ret []
  end.

Definition ImportState (env : Env) (id : string) : M (Response Model) :=
  let model := {| ID := StringNull; Username := StringValue id;
                  Admin := BoolNull; PublicKeys := SetNull |} in
  readAndSet env id model.

End UserResource.

(** ** internal/resource/repository_collaborator.go *)
Module RepositoryCollaboratorResource.
Import GoStrings Client.
Local Open Scope cmd_scope.

Record Model := {
  ID : TfString;
  Repository : TfString;
  Username : TfString;
  AccessLevel : TfString
}.

(** The [for _, c := range collabs] loop: the first entry of the user
    decides. *)
Fixpoint findCollab (collabs : list Parser.CollabEntry) (username : string)
    : option Parser.CollabEntry :=
  match collabs with
  | [] => None
  | c :: rest =>
      if String.eqb (Parser.CUsername c) username then Some c
      else findCollab rest username
  end.

Definition readCollabState (env : Env) (repo username : string) (model : Model)
    : M (Diagnostics * Model) :=
  r <- CollabList env repo ;;
  match snd r with
  | Some err => ret (AddError [] "Error listing collaborators" (Error err), model)
  | None =>
      match findCollab (fst r) username with
      | Some c =>
          let accessLevel :=
            if String.eqb (Parser.AccessLevel c) "" then "read-write"
            else Parser.AccessLevel c in
          ret ([], {| ID := StringValue (repo +:+ "/" +:+ username);
                      Repository := StringValue repo;
                      Username := StringValue username;
                      AccessLevel := StringValue accessLevel |})
      | None =>
          ret (AddError [] "Collaborator not found"
                 ("User " +:+ quote env username +:+
                  " is not a collaborator on repository " +:+ quote env repo),
               model)
      end
  end.

Definition Read (env : Env) (state : Model) : M (Response Model) :=
  r <- readCollabState env (ValueString (Repository state))
         (ValueString (Username state)) state ;;
  if HasError (fst r) then ret {| RDiagnostics := fst r; RState := None |}
  else ret {| RDiagnostics := fst r; RState := Some (snd r) |}.

Definition readAndSet (env : Env) (repo username : string) (plan : Model)
    : M (Response Model) :=
  r <- readCollabState env repo username plan ;;
  if HasError (fst r) then ret {| RDiagnostics := fst r; RState := None |}
  else ret {| RDiagnostics := fst r; RState := Some (snd r) |}.

Definition Create (env : Env) (plan : Model) : M (Response Model) :=
  let repo := ValueString (Repository plan) in
  let username := ValueString (Username plan) in
  let accessLevel := ValueString (AccessLevel plan) in
  err <- CollabAdd env repo username accessLevel ;;
  match err with
  | Some e =>
      ret {| RDiagnostics := AddError [] "Error adding collaborator" (Error e);
             RState := None |}
  | None => readAndSet env repo username plan
  end.

(** Update reads the plan only: [collab add] with another access level
    updates the entry. *)
Definition Update (env : Env) (plan : Model) : M (Response Model) :=
  let repo := ValueString (Repository plan) in
  let username := ValueString (Username plan) in
  let accessLevel := ValueString (AccessLevel plan) in
  err <- CollabAdd env repo username accessLevel ;;
  match err with
  | Some e =>
      ret {| RDiagnostics := AddError [] "Error updating collaborator" (Error e);
             RState := None |}
  | None => readAndSet env repo username plan
  end.

Definition Delete (env : Env) (state : Model) : M Diagnostics :=
  err <- CollabRemove env (ValueString (Repository state))
           (ValueString (Username state)) ;;
  match err with
  | Some e => ret (AddError [] "Error removing collaborator" (Error e))
  | None => ret []
  end.

Definition ImportState (env : Env) (id : string) : M (Response Model) :=
  match SplitN_slash_2 id with
  | [p0; p1] =>
      let model := {| ID := StringNull; Repository := StringValue p0;
                      Username := StringValue p1; AccessLevel := StringNull |} in
      readAndSet env p0 p1 model
  | _ =>
      ret {| RDiagnostics :=
               AddError [] "Invalid import ID"
                 ("Expected format: repository/username, got: " +:+ id);
             RState := None |}
  end.

End RepositoryCollaboratorResource.

(** ** internal/resource/server_settings.go *)
Module ServerSettingsResource.
Import GoStrings Client.

Record Model := {
  ID : TfString;
  AllowKeyless : TfBool;
  AnonAccess : TfString
}.

(** The request carries the prior state; the response arrives from the
    framework and is handed back. *)
Record DeleteRequest := { State : Model }.

(** Singleton resource: the body is empty. *)
Definition Delete (env : Env) (req : DeleteRequest) (resp : Response Model)
    : M (Response Model) :=
  ret resp.

Local Open Scope cmd_scope.

Definition applySettings (env : Env) (model : Model) : M Diagnostics :=
  err <- (if negb (Bool_IsNull (AllowKeyless model)) &&
             negb (Bool_IsUnknown (AllowKeyless model))
          then SettingsSetAllowKeyless env (ValueBool (AllowKeyless model))
          else ret None) ;;
  match err with
  | Some e => ret (AddError [] "Error setting allow-keyless" (Error e))
  | None =>
      err <- (if negb (String_IsNull (AnonAccess model)) &&
                 negb (String_IsUnknown (AnonAccess model))
              then SettingsSetAnonAccess env (ValueString (AnonAccess model))
              else ret None) ;;
      match err with
      | Some e => ret (AddError [] "Error setting anon-access" (Error e))
      | None => ret []
      end
  end.

Definition readSettingsState (env : Env) (model : Model) : M (Diagnostics * Model) :=
  let model := {| ID := StringValue "settings"; AllowKeyless := AllowKeyless model;
                  AnonAccess := AnonAccess model |} in
  r <- SettingsGetAllowKeyless env ;;
  match snd r with
  | Some e => ret (AddError [] "Error reading allow-keyless" (Error e), model)
  | None =>
      let model := {| ID := ID model; AllowKeyless := BoolValue (fst r);
                      AnonAccess := AnonAccess model |} in
      r2 <- SettingsGetAnonAccess env ;;
      match snd r2 with
      | Some e => ret (AddError [] "Error reading anon-access" (Error e), model)
      | None =>
          ret ([], {| ID := ID model; AllowKeyless := AllowKeyless model;
                      AnonAccess := StringValue (fst r2) |})
      end
  end.

Definition readAndSet (env : Env) (model : Model) : M (Response Model) :=
  r <- readSettingsState env model ;;
  if HasError (fst r) then ret {| RDiagnostics := fst r; RState := None |}
  else ret {| RDiagnostics := fst r; RState := Some (snd r) |}.

Definition Create (env : Env) (plan : Model) : M (Response Model) :=
  d <- applySettings env plan ;;
  if HasError d then ret {| RDiagnostics := d; RState := None |}
  else readAndSet env plan.

Definition Read (env : Env) (state : Model) : M (Response Model) :=
  readAndSet env state.

(** Update takes the plan alone; the recorded state is not consulted. *)
Definition Update (env : Env) (plan : Model) : M (Response Model) :=
  d <- applySettings env plan ;;
  if HasError d then ret {| RDiagnostics := d; RState := None |}
  else readAndSet env plan.

Definition ImportState (env : Env) : M (Response Model) :=
  readAndSet env {| ID := StringNull; AllowKeyless := BoolNull; AnonAccess := StringNull |}.

End ServerSettingsResource.

(** ** internal/ssh/client.go: construction and authentication *)
Module ClientAuth.
Import GoStrings.

Record ClientConfig := {
  Host : string;
  Port : Z;
  Username : string;
  PrivateKey : string;
  PrivateKeyPath : string;
  UseAgent : bool;
  IdentityFile : string
}.

Section WithTypes.
(** [ssh.Signer] and [net.Conn] stay abstract. *)
Variables Signer Conn : Type.

(** What NewClient asks of its surroundings: [ssh.ParsePrivateKey],
    [os.ReadFile], [os.Getenv("SSH_AUTH_SOCK")], [net.Dial("unix", _)],
    [ssh.ParseAuthorizedKey] followed by [Marshal], the signers the agent
    behind a connection holds, and [s.PublicKey().Marshal()]. *)
Record AuthEnv := {
  ParsePrivateKey : string -> Signer + error;
  ReadFile : string -> string + error;
  SSH_AUTH_SOCK : string;
  Dial : string -> Conn + error;
  ParseAuthorizedKey : string -> string + error;
  Signers : Conn -> list Signer + error;
  Marshal : Signer -> string
}.

(** [ssh.AuthMethod]; the two the client builds are [ssh.PublicKeys] of
    its signer (in Run) and [ssh.PublicKeysCallback]. *)
Inductive AuthMethod :=
  | PublicKeysCallback (getSigners : unit -> list Signer + error).

Definition offered (a : AuthMethod) : list Signer + error :=
  match a with PublicKeysCallback f => f tt end.

Record Client := {
  host : string;
  port : Z;
  username : string;
  signer : option Signer;
  agentConn : option Conn;
  agentAuth : option AuthMethod
}.

Definition filteredAgentAuth (env : AuthEnv) (agentClient : Conn) (identityFile : string)
    : AuthMethod + error :=
  match ReadFile env identityFile with
  | inr err =>
      inr (Errorf ("reading identity file " +:+ identityFile +:+ ": " +:+ Error err))
  | inl pubKeyData =>
      match ParseAuthorizedKey env pubKeyData with
      | inr err =>
          inr (Errorf ("parsing public key from " +:+ identityFile +:+ ": " +:+ Error err))
      | inl wantBytes =>
          inl (PublicKeysCallback (fun _ =>
            match Signers env agentClient with
            | inr err => inr err
            | inl signers =>
                match find (fun s => String.eqb (Marshal env s) wantBytes) signers with
                | Some s => inl [s]
                | None =>
                    inr (Errorf ("identity file " +:+ identityFile +:+
                                 ": matching key not found in SSH agent"))
                end
            end))
      end
  end.

(** The first block of NewClient: the signer from the key content, else
    from the key file, else none. *)
Definition resolveSigner (env : AuthEnv) (cfg : ClientConfig) : option Signer + error :=
  if negb (String.eqb (PrivateKey cfg) "") then
    match ParsePrivateKey env (PrivateKey cfg) with
    | inr err => inr (Errorf ("parsing private key: " +:+ Error err))
    | inl signer => inl (Some signer)
    end
  else if negb (String.eqb (PrivateKeyPath cfg) "") then
    match ReadFile env (PrivateKeyPath cfg) with
    | inr err =>
        inr (Errorf ("reading private key file " +:+ PrivateKeyPath cfg +:+ ": " +:+ Error err))
    | inl keyData =>
        match ParsePrivateKey env keyData with
        | inr err =>
            inr (Errorf ("parsing private key from " +:+ PrivateKeyPath cfg +:+ ": " +:+
                         Error err))
        | inl signer => inl (Some signer)
        end
    end
  else inl None.

(** The second block: the agent connection and its auth method, when
    the agent is requested and reachable. *)
Definition resolveAgent (env : AuthEnv) (cfg : ClientConfig)
    : (option Conn * option AuthMethod) + error :=
  if UseAgent cfg then
    let socket := SSH_AUTH_SOCK env in
    if negb (String.eqb socket "") then
      match Dial env socket with
      | inl conn =>
          if negb (String.eqb (IdentityFile cfg) "") then
            match filteredAgentAuth env conn (IdentityFile cfg) with
            | inr err =>
                inr (Errorf ("filtering agent keys with identity file: " +:+ Error err))
            | inl a => inl (Some conn, Some a)
            end
          else inl (Some conn, Some (PublicKeysCallback (fun _ => Signers env conn)))
      | inr _ => inl (None, None)
      end
    else inl (None, None)
  else inl (None, None).

Definition errNoAuth : error :=
  Errorf "no authentication method available: provide a private key or enable SSH agent".

Definition NewClient (env : AuthEnv) (cfg : ClientConfig) : Client + error :=
  match resolveSigner env cfg with
  | inr err => inr err
  | inl sg =>
      match resolveAgent env cfg with
      | inr err => inr err
      | inl (conn, auth) =>
          match sg, auth with
          | None, None => inr errNoAuth
          | _, _ =>
              inl {| host := Host cfg; port := Port cfg; username := Username cfg;
                     signer := sg; agentConn := conn; agentAuth := auth |}
          end
      end
  end.

(** The auth methods Run offers, in order. *)
Inductive Offer :=
  | PublicKeys (s : Signer)
  | Callback (a : AuthMethod).

Definition authMethods (c : Client) : list Offer :=
  (match signer c with Some s => [PublicKeys s] | None => [] end ++
   match agentAuth c with Some a => [Callback a] | None => [] end)%list.

End WithTypes.

Arguments ParsePrivateKey {Signer Conn}.
Arguments ReadFile {Signer Conn}.
Arguments SSH_AUTH_SOCK {Signer Conn}.
Arguments Dial {Signer Conn}.
Arguments ParseAuthorizedKey {Signer Conn}.
Arguments Signers {Signer Conn}.
Arguments Marshal {Signer Conn}.
Arguments PublicKeysCallback {Signer}.
Arguments offered {Signer}.
Arguments host {Signer Conn}.
Arguments port {Signer Conn}.
Arguments username {Signer Conn}.
Arguments signer {Signer Conn}.
Arguments agentConn {Signer Conn}.
Arguments agentAuth {Signer Conn}.
Arguments filteredAgentAuth {Signer Conn}.
Arguments resolveSigner {Signer Conn}.
Arguments resolveAgent {Signer Conn}.
Arguments NewClient {Signer Conn}.
Arguments PublicKeys {Signer}.
Arguments Callback {Signer}.
Arguments authMethods {Signer Conn}.

End ClientAuth.

(** ** Notions the statements below are phrased in *)
Module Spec.
Import GoStrings Parser.

(** A blank line: nothing but white space. *)
Fixpoint allSpace (s : string) : bool :=
  match s with
  | EmptyString => true
  | String c r => isSpace c && allSpace r
  end.

Definition nonBlank (line : string) : bool := negb (allSpace line).

(** The value of the last pair with label [k], if any. *)
Fixpoint lastValue (k : string) (kvs : list keyValue) : option string :=
  match kvs with
  | [] => None
  | kv :: rest =>
      match lastValue k rest with
      | Some v => Some v
      | None => if String.eqb (key kv) k then Some (value kv) else None
      end
  end.

(** The label of a line, when the key-value scan gives it one. *)
Definition labelOf (line : string) : option string :=
  match parseKeyValue line with
  | (k, _, true) => Some k
  | (_, _, false) => None
  end.

(** A line that is not indented by two spaces and contains [": "]. *)
Definition closesSection (line : string) : bool :=
  negb (HasPrefix line "  ") && Contains line ": ".

Definition opensSection (line : string) : bool :=
  match labelOf line with
  | Some k => String.eqb k "Public keys"
  | None => false
  end.

(** The lines of a user-info response that are read as label lines:
    those outside a Public keys section, and the line closing one. *)
Fixpoint labelLines (inSection : bool) (lines : list string) : list string :=
  match lines with
  | [] => []
  | l :: rest =>
      if inSection && negb (closesSection l) then labelLines true rest
      else l :: labelLines (opensSection l) rest
  end.

(** The entry a listing line stands for: its first token is the user,
    its second token, if there is one, the access level. *)
Definition tokenEntry (line : string) (e : CollabEntry) : Prop :=
  exists tok rest,
    Fields line = tok :: rest /\
    CUsername e = tok /\
    AccessLevel e = match rest with t2 :: _ => t2 | [] => "" end.

Definition isErr {A} (r : A + error) : Prop :=
  match r with inr _ => True | inl _ => False end.

(** No newline inside. *)
Fixpoint noNewline (s : string) : bool :=
  match s with
  | EmptyString => true
  | String c r => negb (Ascii.eqb c nl) && noNewline r
  end.

(** A value as the server prints it after a label: on one line, without
    white space around it. *)
Definition cleanValue (v : string) : bool :=
  noNewline v && String.eqb (TrimSpace v) v.

(** No white space inside. *)
Fixpoint noSpace (s : string) : bool :=
  match s with
  | EmptyString => true
  | String c r => negb (isSpace c) && noSpace r
  end.

(** A token: not empty and without white space. *)
Definition isToken (t : string) : bool :=
  negb (String.eqb t "") && noSpace t.

(** [strings.Join(lines, "\n")] *)
Fixpoint joinLines (lines : list string) : string :=
  match lines with
  | [] => ""
  | [l] => l
  | l :: rest => l +:+ String nl (joinLines rest)
  end.

(** The labels ParseRepoInfo has a case for. *)
Definition knownLabel (k : string) : bool :=
  String.eqb k "Project Name" || String.eqb k "Repository" ||
  String.eqb k "Description" || String.eqb k "Private" ||
  String.eqb k "Hidden" || String.eqb k "Mirror" || String.eqb k "Owner".

(** A line ParseRepoInfo has no case for: no label, or another one. *)
Definition ignoredLine (line : string) : bool :=
  match labelOf line with
  | Some k => negb (knownLabel k)
  | None => true
  end.

Definition showBool (b : bool) : string := if b then "true" else "false".

(** The seven label lines of a [repo info] response. *)
Definition renderRepoInfo (r : RepoInfoResult) : list string :=
  [ "Project Name: " +:+ ProjectName r;
    "Repository: " +:+ Repository r;
    "Description: " +:+ Description r;
    "Private: " +:+ showBool (Private r);
    "Hidden: " +:+ showBool (Hidden r);
    "Mirror: " +:+ showBool (Mirror r);
    "Owner: " +:+ Owner r ].

(** A [user info] response: the two label lines, then the keys, each
    indented by two spaces under the section heading. *)
Definition renderUserInfo (u : UserInfoResult) : list string :=
  [ "Username: " +:+ Username u;
    "Admin: " +:+ showBool (Admin u);
    "Public keys:" ] ++ map (fun k => "  " +:+ k) (PublicKeys u).

(** A line of a collaborator listing. *)
Definition renderCollab (e : CollabEntry) : string :=
  if String.eqb (AccessLevel e) "" then CUsername e
  else CUsername e +:+ " " +:+ AccessLevel e.

(** The value of the last pair with label [k], or the zero value. *)
Definition lastOr (k : string) (kvs : list keyValue) : string :=
  match lastValue k kvs with Some v => v | None => "" end.

(** [k] newlines. *)
Fixpoint newlines (k : nat) : string :=
  match k with
  | O => ""
  | S k' => String nl (newlines k')
  end.

End Spec.

(** ** Notions for the reconcilers and the client *)
Module ProviderSpec.
Import GoStrings Client.

(** The remote end runs [command] without error, whatever was sent
    before. *)
Definition accepts (env : Env) (command : string) : Prop :=
  forall sent, exists stdout, remote env sent command = inl stdout.

(** The keys a set attribute holds. *)
Definition keysOf (v : TfSet) : list string :=
  match v with SetValue l => l | _ => [] end.

(** A set attribute as Terraform hands it over at apply time: null, or
    known and without duplicates. *)
Definition wfSet (v : TfSet) : Prop :=
  match v with
  | SetUnknown => False
  | SetNull => True
  | SetValue l => List.NoDup l
  end.

(** The caller gave the optional attribute a value. *)
Definition supplied (v : TfString) : bool :=
  negb (String_IsNull v) && negb (String_IsUnknown v).

Definition setAdminCmd (u : string) (b : bool) : string :=
  "user set-admin " +:+ u +:+ " " +:+ fmt_bool b.
Definition removeCmd (env : Env) (u k : string) : string :=
  "user remove-pubkey " +:+ u +:+ " " +:+ quote env k.
Definition addCmd (env : Env) (u k : string) : string :=
  "user add-pubkey " +:+ u +:+ " " +:+ quote env k.

(** The flags of [repo create] for the values RepoCreate is given. *)
Definition createFlags (env : Env) (d n : option string) (p : bool) : string :=
  match d with Some x => " -d " +:+ quote env x | None => "" end +:+
  match n with Some x => " -n " +:+ quote env x | None => "" end +:+
  (if p then " -p" else "").

(** The value of an optional attribute that reaches the command line:
    none for a null, unknown or empty one. *)
Definition flagValue (v : TfString) : option string :=
  match v with
  | StringValue s => if String.eqb s "" then None else Some s
  | _ => None
  end.

Definition dquote : ascii := "034"%char.

(** A remote end for the examples: it answers every command with
    [stdout]; [%q] only wraps in double quotes; [range] visits the keys
    in the order of [elements]. *)
Definition sampleEnv (stdout : string) : Env :=
  {| quote := fun s => String dquote (s +:+ String dquote EmptyString);
     remote := fun _ _ => inl stdout;
     rangeOrder := elements |}.

(** A remote end that refuses the commands [bad] says so and answers
    every other one with [stdout]. *)
Definition refusingEnv (bad : string -> bool) (stdout : string) : Env :=
  {| quote := fun s => String dquote (s +:+ String dquote EmptyString);
     remote := fun _ c => if bad c then inr (Errorf "exit status 1") else inl stdout;
     rangeOrder := elements |}.

(** The outcome of a command at a given point. *)
Definition succeeds (env : Env) (sent : list string) (command : string) : bool :=
  match remote env sent command with inl _ => true | inr _ => false end.

(** One error diagnostic, as [AddError] leaves it in an empty list. *)
Definition oneError (summary : string) (err : error) : Diagnostics :=
  [{| Summary := summary; Detail := Error err |}].

(** The [-k] flags of [user create], one per key. *)
Fixpoint keyFlags (env : Env) (keys : list string) : string :=
  match keys with
  | [] => ""
  | k :: rest => " -k " +:+ quote env k +:+ keyFlags env rest
  end.

(** The commands of a repository Update, in the order of the source:
    one per attribute whose planned value differs from the state. *)
Definition repoChanges (env : Env) (plan state : RepositoryResource.Model) : list string :=
  let name := ValueString (RepositoryResource.Name plan) in
  (if String_Equal (RepositoryResource.Description plan)
        (RepositoryResource.Description state) then []
   else ["repo description " +:+ name +:+ " " +:+
         quote env (ValueString (RepositoryResource.Description plan))]) ++
  (if String_Equal (RepositoryResource.ProjectName plan)
        (RepositoryResource.ProjectName state) then []
   else ["repo project-name " +:+ name +:+ " " +:+
         quote env (ValueString (RepositoryResource.ProjectName plan))]) ++
  (if Bool_Equal (RepositoryResource.Private plan)
        (RepositoryResource.Private state) then []
   else ["repo private " +:+ name +:+ " " +:+
         fmt_bool (ValueBool (RepositoryResource.Private plan))]) ++
  (if Bool_Equal (RepositoryResource.Hidden plan)
        (RepositoryResource.Hidden state) then []
   else ["repo hidden " +:+ name +:+ " " +:+
         fmt_bool (ValueBool (RepositoryResource.Hidden plan))]).

(** The commands applySettings sends for a model: one per known value. *)
Definition settingsChanges (model : ServerSettingsResource.Model) : list string :=
  (match ServerSettingsResource.AllowKeyless model with
   | BoolValue b => ["settings allow-keyless " +:+ fmt_bool b]
   | _ => []
   end) ++
  (match ServerSettingsResource.AnonAccess model with
   | StringValue l => ["settings anon-access " +:+ l]
   | _ => []
   end).

(** The two queries of readSettingsState. *)
Definition settingsQueries : list string :=
  ["settings allow-keyless"; "settings anon-access"].

(** A known attribute. *)
Definition knownString (v : TfString) : Prop := exists s, v = StringValue s.
Definition knownBool (v : TfBool) : Prop := exists b, v = BoolValue b.

(** [sort.Strings] order. *)
Definition sortedStrings (l : list string) : Prop :=
  Sorted (fun a b => String.leb a b = true) l.

(** Sending commands one after the other until one fails: the error of
    the failing one, if any, and the commands sent. *)
Fixpoint sendAll (env : Env) (cmds : list string) (sent : list string)
    : option error * list string :=
  match cmds with
  | [] => (None, sent)
  | c :: rest =>
      match remote env sent c with
      | inr e => (Some e, sent ++ [c])
      | inl _ => sendAll env rest (sent ++ [c])
      end
  end.

(** The commands of a repository Create. *)
Definition repoCreation (env : Env) (plan : RepositoryResource.Model) : list string :=
  let name := ValueString (RepositoryResource.Name plan) in
  ("repo create " +:+ name +:+
   createFlags env (flagValue (RepositoryResource.Description plan))
                   (flagValue (RepositoryResource.ProjectName plan))
                   (ValueBool (RepositoryResource.Private plan))) ::
  (if ValueBool (RepositoryResource.Hidden plan)
   then ["repo hidden " +:+ name +:+ " true"] else []).

(** The command of a collaborator Create or Update: the access level is
    left out when the plan has none. *)
Definition collabAddCmd (plan : RepositoryCollaboratorResource.Model) : string :=
  "repo collab add " +:+
  ValueString (RepositoryCollaboratorResource.Repository plan) +:+ " " +:+
  ValueString (RepositoryCollaboratorResource.Username plan) +:+
  match RepositoryCollaboratorResource.AccessLevel plan with
  | StringValue l => if String.eqb l "" then "" else " " +:+ l
  | _ => ""
  end.

(** The command of a user Create. *)
Definition userCreateCmd (env : Env) (plan : UserResource.Model) : string :=
  "user create " +:+ ValueString (UserResource.Username plan) +:+
  (if ValueBool (UserResource.Admin plan) then " -a" else "") +:+
  keyFlags env (keysOf (UserResource.PublicKeys plan)).

(** No ["/"] inside. *)
Fixpoint noSlash (s : string) : bool :=
  match s with
  | EmptyString => true
  | String c r => negb (Ascii.eqb c "/") && noSlash r
  end.

(** What a repository operation leaves behind: a state and no
    diagnostic, or no state and a diagnostic.  The state has the name the
    server was asked about as its ID, the server's non-empty name, and
    every attribute known. *)
Definition repoStateOk (name : string) (resp : Response RepositoryResource.Model) : Prop :=
  match RState resp with
  | Some m =>
      RDiagnostics resp = [] /\
      RepositoryResource.ID m = StringValue name /\
      (exists n, RepositoryResource.Name m = StringValue n /\ n <> "") /\
      knownString (RepositoryResource.Description m) /\
      knownString (RepositoryResource.ProjectName m) /\
      knownBool (RepositoryResource.Private m) /\
      knownBool (RepositoryResource.Hidden m)
  | None => RDiagnostics resp <> []
  end.

(** The same for a user; [prior] is the key set of the plan or state
    the operation started from.  The keys are stored in sorted order,
    and as null only when they were null before and the server has
    none. *)
Definition userStateOk (username : string) (prior : TfSet)
    (resp : Response UserResource.Model) : Prop :=
  match RState resp with
  | Some m =>
      RDiagnostics resp = [] /\
      UserResource.ID m = StringValue username /\
      (exists n, UserResource.Username m = StringValue n /\ n <> "") /\
      knownBool (UserResource.Admin m) /\
      match UserResource.PublicKeys m with
      | SetValue l => sortedStrings l /\ (l = [] -> prior <> SetNull)
      | SetNull => prior = SetNull
      | SetUnknown => False
      end
  | None => RDiagnostics resp <> []
  end.

(** The same for a collaborator: the ID joins repository and user with
    a slash, and the access level is never empty. *)
Definition collabStateOk (repo username : string)
    (resp : Response RepositoryCollaboratorResource.Model) : Prop :=
  match RState resp with
  | Some m =>
      RDiagnostics resp = [] /\
      RepositoryCollaboratorResource.ID m = StringValue (repo +:+ "/" +:+ username) /\
      RepositoryCollaboratorResource.Repository m = StringValue repo /\
      RepositoryCollaboratorResource.Username m = StringValue username /\
      exists a, RepositoryCollaboratorResource.AccessLevel m = StringValue a /\ a <> ""
  | None => RDiagnostics resp <> []
  end.

(** The same for the server settings: the ID is the constant
    ["settings"], both settings are known, and the access level has no
    white space around it. *)
Definition settingsStateOk (resp : Response ServerSettingsResource.Model) : Prop :=
  match RState resp with
  | Some m =>
      RDiagnostics resp = [] /\
      ServerSettingsResource.ID m = StringValue "settings" /\
      knownBool (ServerSettingsResource.AllowKeyless m) /\
      exists a, ServerSettingsResource.AnonAccess m = StringValue a /\ TrimSpace a = a
  | None => RDiagnostics resp <> []
  end.

(** A remote end that runs every command and prints [answer command]. *)
Definition answeringEnv (answer : string -> string) : Env :=
  {| quote := fun s => String dquote (s +:+ String dquote EmptyString);
     remote := fun _ c => inl (answer c);
     rangeOrder := elements |}.

(** A server with keyless access allowed and read-only anonymous
    access; it ends its answers with a newline. *)
Definition settingsAnswer (command : string) : string :=
  if String.eqb command "settings allow-keyless" then "true" +:+ String nl ""
  else "read-only" +:+ String nl "".

End ProviderSpec.

(** ** Notions for the construction of the client *)
Module AuthSpec.
Import GoStrings ClientAuth.

Section WithTypes.
Variables Signer Conn : Type.

(** A method resolves when what it needs is there and usable. *)
Definition keyContentResolves (env : AuthEnv Signer Conn) (cfg : ClientConfig) : Prop :=
  PrivateKey cfg <> "" /\
  exists s, ParsePrivateKey env (PrivateKey cfg) = inl s.

Definition keyFileResolves (env : AuthEnv Signer Conn) (cfg : ClientConfig) : Prop :=
  PrivateKeyPath cfg <> "" /\
  exists data s,
    ReadFile env (PrivateKeyPath cfg) = inl data /\ ParsePrivateKey env data = inl s.

(** The agent is requested and answers on its socket. *)
Definition agentReachable (env : AuthEnv Signer Conn) (cfg : ClientConfig) : Prop :=
  UseAgent cfg = true /\ SSH_AUTH_SOCK env <> "" /\
  exists conn, Dial env (SSH_AUTH_SOCK env) = inl conn.

Definition agentResolves (env : AuthEnv Signer Conn) (cfg : ClientConfig) : Prop :=
  UseAgent cfg = true /\ SSH_AUTH_SOCK env <> "" /\
  exists conn,
    Dial env (SSH_AUTH_SOCK env) = inl conn /\
    (IdentityFile cfg = "" \/
     exists a, filteredAgentAuth env conn (IdentityFile cfg) = inl a).

Definition someMethodResolves (env : AuthEnv Signer Conn) (cfg : ClientConfig) : Prop :=
  keyContentResolves env cfg \/ keyFileResolves env cfg \/ agentResolves env cfg.

(** No key is configured and the agent is not requested or not
    reachable. *)
Definition nothingConfigured (env : AuthEnv Signer Conn) (cfg : ClientConfig) : Prop :=
  PrivateKey cfg = "" /\ PrivateKeyPath cfg = "" /\ ~ agentReachable env cfg.

Definition withKeyPath (cfg : ClientConfig) (path : string) : ClientConfig :=
  {| Host := Host cfg; Port := Port cfg; Username := Username cfg;
     PrivateKey := PrivateKey cfg; PrivateKeyPath := path;
     UseAgent := UseAgent cfg; IdentityFile := IdentityFile cfg |}.

End WithTypes.

Arguments keyContentResolves {Signer Conn}.
Arguments keyFileResolves {Signer Conn}.
Arguments agentReachable {Signer Conn}.
Arguments agentResolves {Signer Conn}.
Arguments someMethodResolves {Signer Conn}.
Arguments nothingConfigured {Signer Conn}.

(** Surroundings for the examples: no key parses, no file exists, and
    an agent holding one key answers on its socket when [sock] is not
    empty. *)
Definition sampleAuthEnv (sock : string) : AuthEnv unit unit :=
  {| ParsePrivateKey := fun _ => inr (Errorf "ssh: no key found");
     ReadFile := fun _ => inr (Errorf "no such file or directory");
     SSH_AUTH_SOCK := sock;
     Dial := fun _ => inl tt;
     ParseAuthorizedKey := fun _ => inr (Errorf "ssh: no key found");
     Signers := fun _ => inl [tt];
     Marshal := fun _ => "key" |}.

Definition sampleConfig (key : string) (agent : bool) : ClientConfig :=
  {| Host := "localhost"; Port := 23231; Username := "admin";
     PrivateKey := key; PrivateKeyPath := ""; UseAgent := agent; IdentityFile := "" |}.

(** Surroundings with an identity file: every file holds the one public
    key line, which parses to the key [want]; the agent on the socket
    holds the keys [held], each standing for its own public key. *)
Definition identityAuthEnv (want : string) (held : list string) : AuthEnv string unit :=
  {| ParsePrivateKey := fun _ => inr (Errorf "ssh: no key found");
     ReadFile := fun _ => inl "ssh-ed25519 AAAA";
     SSH_AUTH_SOCK := "/tmp/agent.sock";
     Dial := fun _ => inl tt;
     ParseAuthorizedKey := fun _ => inl want;
     Signers := fun _ => inl held;
     Marshal := fun s => s |}.

End AuthSpec.

(** * Properties *)

(** ** The string functions *)
Section GoStringsFacts.
Import GoStrings Spec.

Lemma TrimLeftSpace_empty s : TrimLeftSpace s = "" <-> allSpace s = true.
Proof.
  induction s as [|c r IH]; simpl; [tauto|].
  destruct (isSpace c); simpl; [exact IH|]. split; discriminate.
Qed.

Lemma TrimRightSpace_empty s : TrimRightSpace s = "" <-> allSpace s = true.
Proof.
  induction s as [|c r IH]; simpl; [tauto|].
  destruct (TrimRightSpace r) eqn:E.
  - destruct (isSpace c); simpl; [tauto|]. split; discriminate.
  - split; [discriminate|]. intros H. apply andb_true_iff in H as [_ H].
    apply IH in H. discriminate.
Qed.

Lemma TrimLeftSpace_head s c r :
  TrimLeftSpace s = String c r -> isSpace c = false.
Proof.
  induction s as [|c' r' IH]; simpl; [discriminate|].
  destruct (isSpace c') eqn:E; [exact IH|]. intros [= <- <-]. exact E.
Qed.

Lemma TrimSpace_empty s : TrimSpace s = "" <-> allSpace s = true.
Proof.
  unfold TrimSpace. rewrite TrimRightSpace_empty.
  rewrite <- (TrimLeftSpace_empty s).
  destruct (TrimLeftSpace s) as [|c r] eqn:E; simpl; [split; reflexivity|].
  rewrite (TrimLeftSpace_head _ _ _ E). simpl. split; discriminate.
Qed.

Lemma TrimSpace_nonBlank s : negb (String.eqb (TrimSpace s) "") = nonBlank s.
Proof.
  unfold nonBlank. f_equal.
  destruct (allSpace s) eqn:E.
  - apply TrimSpace_empty in E. rewrite E. reflexivity.
  - apply String.eqb_neq. intros H. apply TrimSpace_empty in H. congruence.
Qed.

Lemma Split_nl_nonempty s : Split_nl s <> [].
Proof.
  destruct s as [|c r]; simpl; [discriminate|].
  destruct (Ascii.eqb c nl); [discriminate|]. destruct (Split_nl r); discriminate.
Qed.

Lemma Split_nl_allSpace s :
  allSpace s = true -> Forall (fun l => allSpace l = true) (Split_nl s).
Proof.
  induction s as [|c r IH]; simpl; intros H.
  - repeat constructor.
  - apply andb_true_iff in H as [Hc Hr]. specialize (IH Hr).
    destruct (Ascii.eqb c nl).
    + constructor; [reflexivity|exact IH].
    + destruct (Split_nl r) as [|h t].
      * repeat constructor. simpl. rewrite Hc. reflexivity.
      * inversion IH; subst. constructor; [|assumption]. simpl. rewrite Hc. assumption.
Qed.

Lemma Fields_nil s : Fields s = [] <-> allSpace s = true.
Proof.
  induction s as [|c r IH]; simpl; [tauto|].
  destruct (isSpace c); simpl; [exact IH|].
  split; [|discriminate].
  destruct r as [|c' r']; [discriminate|].
  destruct (isSpace c'); [discriminate|]. destruct (Fields (String c' r')); discriminate.
Qed.

Lemma Fields_cons c r :
  Fields (String c r) =
  if isSpace c then Fields r
  else match r with
       | EmptyString => [String c EmptyString]
       | String c' _ =>
           if isSpace c' then String c EmptyString :: Fields r
           else match Fields r with
                | h :: t => String c h :: t
                | [] => [String c EmptyString]
                end
       end.
Proof. reflexivity. Qed.

Lemma Fields_TrimLeftSpace s : Fields (TrimLeftSpace s) = Fields s.
Proof.
  induction s as [|c r IH]; simpl; [reflexivity|].
  destruct (isSpace c) eqn:E; [exact IH|]. simpl. rewrite E. reflexivity.
Qed.

Lemma TrimRightSpace_head c r c' r' :
  TrimRightSpace (String c r) = String c' r' -> c' = c.
Proof.
  simpl. destruct (TrimRightSpace r).
  - destruct (isSpace c); [discriminate|]. congruence.
  - congruence.
Qed.

Lemma Fields_TrimRightSpace s : Fields (TrimRightSpace s) = Fields s.
Proof.
  induction s as [|c r IH]; [reflexivity|].
  cbn [TrimRightSpace].
  destruct (TrimRightSpace r) as [|c1 r1] eqn:ET.
  - assert (Hr : allSpace r = true) by (apply TrimRightSpace_empty; exact ET).
    assert (Fr : Fields r = []) by (apply Fields_nil; exact Hr).
    destruct (isSpace c) eqn:Ec.
    + simpl. rewrite Ec. symmetry. exact Fr.
    + simpl. rewrite Ec. destruct r as [|c' r']; [reflexivity|].
      simpl in Hr. apply andb_true_iff in Hr as [Hc' _]. rewrite Hc'.
      rewrite Fr. reflexivity.
  - destruct r as [|c' r']; [discriminate|].
    pose proof (TrimRightSpace_head _ _ _ _ ET) as ->.
    rewrite (Fields_cons c (String c' r1)), (Fields_cons c (String c' r')).
    destruct (isSpace c); [exact IH|].
    destruct (isSpace c'); rewrite IH; reflexivity.
Qed.

Lemma Fields_TrimSpace s : Fields (TrimSpace s) = Fields s.
Proof. unfold TrimSpace. rewrite Fields_TrimRightSpace. apply Fields_TrimLeftSpace. Qed.

Lemma TrimRightSpace_idem s : TrimRightSpace (TrimRightSpace s) = TrimRightSpace s.
Proof.
  induction s as [|c r IH]; [reflexivity|].
  cbn [TrimRightSpace]. destruct (TrimRightSpace r) as [|c1 r1] eqn:ET.
  - destruct (isSpace c) eqn:Ec; [reflexivity|]. simpl. rewrite Ec. reflexivity.
  - cbn [TrimRightSpace]. cbn [TrimRightSpace] in IH. rewrite IH. reflexivity.
Qed.

Lemma TrimLeftSpace_fix s :
  match s with String c _ => isSpace c = false | EmptyString => True end ->
  TrimLeftSpace s = s.
Proof. destruct s as [|c r]; simpl; [tauto|]. intros ->. reflexivity. Qed.

Lemma TrimSpace_idem s : TrimSpace (TrimSpace s) = TrimSpace s.
Proof.
  unfold TrimSpace.
  destruct (TrimLeftSpace s) as [|c r] eqn:EL; [reflexivity|].
  pose proof (TrimLeftSpace_head _ _ _ EL) as Hc.
  destruct (TrimRightSpace (String c r)) as [|c1 r1] eqn:ER; [reflexivity|].
  pose proof (TrimRightSpace_head _ _ _ _ ER) as ->.
  rewrite TrimLeftSpace_fix by exact Hc.
  rewrite <- ER. apply TrimRightSpace_idem.
Qed.

Lemma Index_allSpace s : allSpace s = true -> Index s ": " = -1.
Proof.
  induction s as [|c r IH]; simpl; [reflexivity|].
  intros H. apply andb_true_iff in H as [Hc Hr]. rewrite (IH Hr).
  destruct (Ascii.eqb_spec c ":") as [->|Hne]; [discriminate|]. reflexivity.
Qed.

Lemma Contains_nonBlank s : Contains s ": " = true -> nonBlank s = true.
Proof.
  unfold Contains, nonBlank. destruct (allSpace s) eqn:E; [|reflexivity].
  rewrite (Index_allSpace _ E). discriminate.
Qed.

End GoStringsFacts.

(** ** The output parser *)
Section ParserFacts.
Import GoStrings Parser Spec.

Lemma collabStep_blank entries line :
  nonBlank line = false -> collabStep entries line = entries.
Proof.
  intros H. unfold collabStep. rewrite <- TrimSpace_nonBlank in H.
  apply negb_false_iff in H. rewrite H. reflexivity.
Qed.

Lemma collabStep_entry entries line :
  nonBlank line = true ->
  exists e, collabStep entries line = entries ++ [e] /\ tokenEntry line e.
Proof.
  intros H. unfold collabStep.
  pose proof (TrimSpace_nonBlank line) as HT. rewrite H in HT.
  apply negb_true_iff in HT. rewrite HT.
  rewrite Fields_TrimSpace.
  destruct (Fields line) as [|p0 ps] eqn:EF.
  - apply Fields_nil in EF. unfold nonBlank in H. rewrite EF in H. discriminate.
  - eexists. split; [reflexivity|]. exists p0, ps. simpl.
    split; [exact EF|]. split; [reflexivity|]. destruct ps; reflexivity.
Qed.

Lemma collab_fold lines : forall acc,
  exists es,
    fold_left collabStep lines acc = acc ++ es /\
    Forall2 tokenEntry (List.filter nonBlank lines) es.
Proof.
  induction lines as [|l rest IH]; intros acc; simpl.
  - exists []. split; [symmetry; apply app_nil_r|constructor].
  - destruct (nonBlank l) eqn:E.
    + destruct (collabStep_entry acc l E) as (e & -> & He).
      destruct (IH (acc ++ [e])) as (es & -> & Hes).
      exists (e :: es). split; [rewrite <- app_assoc; reflexivity|].
      constructor; assumption.
    + rewrite (collabStep_blank _ _ E). apply IH.
Qed.

Lemma ParseCollabList_no_error output : snd (ParseCollabList output) = None.
Proof.
  unfold ParseCollabList. destruct (String.eqb (TrimSpace output) ""); reflexivity.
Qed.



Lemma repoAssign_Repository r kv :
  Repository (repoAssign r kv) =
  if String.eqb (key kv) "Repository" then value kv else Repository r.
Proof.
  unfold repoAssign.
  destruct (String.eqb_spec (key kv) "Repository") as [->|Hne]; [reflexivity|].
  repeat match goal with
         | |- context [String.eqb (key kv) ?k] => destruct (String.eqb (key kv) k)
         end; reflexivity.
Qed.

Lemma repo_fold_Repository kvs : forall r,
  Repository (fold_left repoAssign kvs r) =
  match lastValue "Repository" kvs with Some v => v | None => Repository r end.
Proof.
  induction kvs as [|kv rest IH]; intros r; simpl; [reflexivity|].
  rewrite IH, repoAssign_Repository.
  destruct (lastValue "Repository" rest); [reflexivity|].
  destruct (String.eqb (key kv) "Repository"); reflexivity.
Qed.

Lemma userKeyValue_spec st line :
  userKeyValue st line =
  match parseKeyValue line with
  | (k, v, true) =>
      {| uName := if String.eqb k "Username" then v else uName st;
         uAdmin := if String.eqb k "Username" then uAdmin st
                   else if String.eqb k "Admin" then String.eqb v "true" else uAdmin st;
         uKeys := uKeys st;
         inPublicKeys := inPublicKeys st || opensSection line |}
  | (_, _, false) => st
  end.
Proof.
  unfold userKeyValue, opensSection, labelOf.
  destruct (parseKeyValue line) as [[k v] [|]]; [|reflexivity].
  destruct st as [n a ks f]; simpl.
  destruct (String.eqb_spec k "Username") as [->|H1]; simpl.
  - rewrite orb_false_r. reflexivity.
  - destruct (String.eqb_spec k "Admin") as [->|H2]; simpl.
    + rewrite orb_false_r. reflexivity.
    + destruct (String.eqb k "Public keys"); simpl.
      * rewrite orb_true_r. reflexivity.
      * rewrite orb_false_r. reflexivity.
Qed.

Lemma userKeyValue_flag st line :
  inPublicKeys (userKeyValue st line) = inPublicKeys st || opensSection line.
Proof.
  rewrite userKeyValue_spec. unfold opensSection, labelOf.
  destruct (parseKeyValue line) as [[k v] [|]]; simpl; [reflexivity|].
  rewrite orb_false_r. reflexivity.
Qed.

Lemma userKeyValue_keys st line : uKeys (userKeyValue st line) = uKeys st.
Proof.
  rewrite userKeyValue_spec.
  destruct (parseKeyValue line) as [[k v] [|]]; reflexivity.
Qed.

Lemma userKeyValue_name st line :
  uName (userKeyValue st line) =
  match lastValue "Username" (parseKeyValues_lines [line]) with
  | Some v => v
  | None => uName st
  end.
Proof.
  rewrite userKeyValue_spec. simpl.
  destruct (parseKeyValue line) as [[k v] [|]]; simpl; [|reflexivity].
  destruct (String.eqb k "Username"); reflexivity.
Qed.

(** Inside a section, a line either closes it and is read as a label
    line, or is swallowed: collected when it is not blank, skipped
    otherwise. *)
Lemma userStep_inSection st line :
  inPublicKeys st = true ->
  userStep st line =
  if closesSection line then
    userKeyValue {| uName := uName st; uAdmin := uAdmin st; uKeys := uKeys st;
                    inPublicKeys := false |} line
  else
    {| uName := uName st; uAdmin := uAdmin st;
       uKeys := uKeys st ++ (if nonBlank line then [TrimSpace line] else []);
       inPublicKeys := true |}.
Proof.
  intros Hf. unfold userStep. rewrite Hf, TrimSpace_nonBlank.
  fold (closesSection line).
  destruct (closesSection line) eqn:Ec.
  - unfold closesSection in Ec. apply andb_true_iff in Ec as [_ Ec].
    rewrite (Contains_nonBlank _ Ec). reflexivity.
  - destruct (nonBlank line); [reflexivity|].
    destruct st as [n a ks f]; simpl in *. subst f. rewrite app_nil_r. reflexivity.
Qed.

Lemma userStep_outside st line :
  inPublicKeys st = false -> userStep st line = userKeyValue st line.
Proof. intros Hf. unfold userStep. rewrite Hf. reflexivity. Qed.

Lemma lastValue_cons_line k line rest :
  lastValue k (parseKeyValues_lines (line :: rest)) =
  match lastValue k (parseKeyValues_lines rest) with
  | Some v => Some v
  | None => lastValue k (parseKeyValues_lines [line])
  end.
Proof.
  simpl. destruct (parseKeyValue line) as [[k' v'] [|]]; simpl.
  - destruct (lastValue k (parseKeyValues_lines rest)); reflexivity.
  - destruct (lastValue k (parseKeyValues_lines rest)); reflexivity.
Qed.

Lemma userLoop_name lines : forall st,
  uName (userLoop lines st) =
  match lastValue "Username"
          (parseKeyValues_lines (labelLines (inPublicKeys st) lines)) with
  | Some v => v
  | None => uName st
  end.
Proof.
  unfold userLoop.
  induction lines as [|l rest IH]; intros st; [reflexivity|].
  cbn [fold_left labelLines]. rewrite IH.
  destruct (inPublicKeys st) eqn:Hf.
  - rewrite (userStep_inSection _ _ Hf).
    destruct (closesSection l) eqn:Ec; cbn [andb negb].
    + rewrite lastValue_cons_line, userKeyValue_flag, userKeyValue_name.
      cbn [inPublicKeys orb uName].
      destruct (lastValue "Username" (parseKeyValues_lines (labelLines (opensSection l) rest)));
        reflexivity.
    + reflexivity.
  - rewrite (userStep_outside _ _ Hf). cbn [andb].
    rewrite lastValue_cons_line, userKeyValue_flag, userKeyValue_name, Hf.
    cbn [orb].
    destruct (lastValue "Username" (parseKeyValues_lines (labelLines (opensSection l) rest)));
      reflexivity.
Qed.



Lemma userLoop_app l1 l2 st :
  userLoop (l1 ++ l2) st = userLoop l2 (userLoop l1 st).
Proof. unfold userLoop. apply fold_left_app. Qed.

Lemma indented_not_closing line :
  HasPrefix line "  " = true -> closesSection line = false.
Proof. intros H. unfold closesSection. rewrite H. reflexivity. Qed.

(** The indented lines after the label are collected, trimmed. *)
Lemma userLoop_collect ks : forall n a keys,
  Forall (fun k => HasPrefix k "  " = true /\ nonBlank k = true) ks ->
  userLoop ks {| uName := n; uAdmin := a; uKeys := keys; inPublicKeys := true |} =
  {| uName := n; uAdmin := a; uKeys := keys ++ map TrimSpace ks; inPublicKeys := true |}.
Proof.
  induction ks as [|k rest IH]; intros n a keys HF.
  - simpl. rewrite app_nil_r. reflexivity.
  - inversion HF as [|? ? [Hi Hb] HF']; subst.
    unfold userLoop in *. cbn [fold_left].
    rewrite userStep_inSection by reflexivity.
    rewrite (indented_not_closing _ Hi), Hb. cbn [uName uAdmin uKeys].
    rewrite IH by assumption. rewrite <- app_assoc. reflexivity.
Qed.

Lemma userFinish_flag n a keys f :
  userFinish {| uName := n; uAdmin := a; uKeys := keys; inPublicKeys := f |} =
  userFinish {| uName := n; uAdmin := a; uKeys := keys; inPublicKeys := false |}.
Proof. reflexivity. Qed.




Lemma userStep_keys_origin st line k :
  In k (uKeys (userStep st line)) ->
  In k (uKeys st) \/ (k = TrimSpace line /\ nonBlank line = true).
Proof.
  destruct (inPublicKeys st) eqn:Hf.
  - rewrite (userStep_inSection _ _ Hf).
    destruct (closesSection line).
    + rewrite userKeyValue_keys. cbn. tauto.
    + cbn [uKeys]. rewrite in_app_iff.
      destruct (nonBlank line); simpl; [|tauto].
      intros [H|[H|[]]]; [tauto|]. right. split; [congruence|reflexivity].
  - rewrite (userStep_outside _ _ Hf), userKeyValue_keys. tauto.
Qed.

Lemma userLoop_keys_origin lines : forall st k,
  In k (uKeys (userLoop lines st)) ->
  In k (uKeys st) \/
  exists line, In line lines /\ k = TrimSpace line /\ nonBlank line = true.
Proof.
  unfold userLoop.
  induction lines as [|l rest IH]; intros st k Hk; [left; exact Hk|].
  cbn [fold_left] in Hk. apply IH in Hk as [Hk|(line & Hin & Heq & Hnb)].
  - apply userStep_keys_origin in Hk as [Hk|[Heq Hnb]]; [left; exact Hk|].
    right. exists l. split; [left; reflexivity|]. split; assumption.
  - right. exists line. split; [right; exact Hin|]. split; assumption.
Qed.


End ParserFacts.

(** ** The reconcilers *)
Section ReconcilerFacts.
Import GoStrings Client ProviderSpec.

Lemma String_Equal_refl v : String_Equal v v = true.
Proof. destruct v; simpl; try reflexivity. apply String.eqb_refl. Qed.

Lemma Bool_Equal_refl v : Bool_Equal v v = true.
Proof. destruct v as [| |[|]]; reflexivity. Qed.

Lemma contains_In l x : contains l x = true <-> In x l.
Proof.
  unfold contains. rewrite existsb_exists. split.
  - intros (y & Hy & E). apply String.eqb_eq in E. congruence.
  - intros H. exists x. split; [exact H|apply String.eqb_refl].
Qed.

Lemma Set_Equal_refl v : Set_Equal v v = true.
Proof.
  destruct v as [| |l]; simpl; try reflexivity.
  rewrite Nat.eqb_refl. simpl. apply forallb_forall.
  intros x Hx. apply contains_In. exact Hx.
Qed.

Lemma run_sent env cmd sent : snd (run_ env cmd sent) = sent ++ [cmd].
Proof.
  unfold run_, bind, Run, ret. destruct (remote env sent cmd); reflexivity.
Qed.

Lemma run_accepted env cmd sent :
  accepts env cmd -> run_ env cmd sent = (None, sent ++ [cmd]).
Proof.
  intros H. destruct (H sent) as [out E].
  unfold run_, bind, Run, ret. rewrite E. reflexivity.
Qed.

Lemma Repository_readAndSet_sent env name plan sent :
  snd (RepositoryResource.readAndSet env name plan sent) = sent ++ ["repo info " +:+ name].
Proof.
  unfold RepositoryResource.readAndSet, RepositoryResource.readRepoState, RepoInfo,
    bind, Run, ret.
  destruct (remote env sent ("repo info " +:+ name)); cbn.
  - destruct (Parser.ParseRepoInfo _); reflexivity.
  - reflexivity.
Qed.

Lemma User_readAndSet_sent env username plan sent :
  snd (UserResource.readAndSet env username plan sent) = sent ++ ["user info " +:+ username].
Proof.
  unfold UserResource.readAndSet, UserResource.readUserState, UserInfo, bind, Run, ret.
  destruct (remote env sent ("user info " +:+ username)); cbn.
  - destruct (Parser.ParseUserInfo _); reflexivity.
  - reflexivity.
Qed.

(** C8: ServerSettings Delete sends no command and hands the response
    back as it came; a response that arrives without diagnostics leaves
    without errors. *)
Theorem ServerSettings_Delete_noop env req :
  (forall resp sent,
     ServerSettingsResource.Delete env req resp sent = (resp, sent)) /\
  (forall st sent,
     HasError (RDiagnostics
       (fst (ServerSettingsResource.Delete env req
               {| RDiagnostics := []; RState := st |} sent))) = false).
Proof. split; reflexivity. Qed.

(** C2: when the plan equals the recorded state, Update of a repository
    and Update of a user send one command only, the verifying info
    query. *)
Theorem Update_equal_states_only_reads env :
  (forall m sent,
     snd (RepositoryResource.Update env m m sent) =
     sent ++ ["repo info " +:+ ValueString (RepositoryResource.Name m)]) /\
  (forall m sent,
     snd (UserResource.Update env m m sent) =
     sent ++ ["user info " +:+ ValueString (UserResource.Username m)]).
Proof.
  split; intros m sent.
  - unfold RepositoryResource.Update. rewrite !String_Equal_refl, !Bool_Equal_refl.
    cbn. apply Repository_readAndSet_sent.
  - unfold UserResource.Update. rewrite Bool_Equal_refl, Set_Equal_refl.
    cbn. apply User_readAndSet_sent.
Qed.

Lemma findCollab_None collabs username :
  RepositoryCollaboratorResource.findCollab collabs username = None <->
  ~ In username (map Parser.CUsername collabs).
Proof.
  induction collabs as [|c rest IH]; simpl; [tauto|].
  destruct (String.eqb_spec (Parser.CUsername c) username) as [E|E].
  - split; [discriminate|]. intros H. exfalso. apply H. left. exact E.
  - rewrite IH. tauto.
Qed.

Lemma findCollab_first pre c post username :
  Parser.CUsername c = username ->
  ~ In username (map Parser.CUsername pre) ->
  RepositoryCollaboratorResource.findCollab (pre ++ c :: post) username = Some c.
Proof.
  intros Hc. induction pre as [|p pre IH]; simpl; intros Hn.
  - rewrite Hc, String.eqb_refl. reflexivity.
  - destruct (String.eqb_spec (Parser.CUsername p) username) as [E|E]; [tauto|].
    apply IH. tauto.
Qed.

(** C7: whatever the listing command returns, Read of a collaborator
    reports a transport failure as a listing error; after a successful
    listing it fails, with the not-found diagnostic, exactly when the
    user is absent from the parsed listing, and when the user's entry
    (the first one for that name) has an empty access level the state
    it stores has access level read-write. *)
Theorem Collaborator_Read_listing env state sent res :
  remote env sent
    ("repo collab list " +:+
     ValueString (RepositoryCollaboratorResource.Repository state)) = res ->
  let username := ValueString (RepositoryCollaboratorResource.Username state) in
  let resp := fst (RepositoryCollaboratorResource.Read env state sent) in
  match res with
  | inr err =>
      map Summary (RDiagnostics resp) = ["Error listing collaborators"] /\
      RState resp = None
  | inl stdout =>
      let entries := fst (Parser.ParseCollabList (TrimRight_nl stdout)) in
      (map Summary (RDiagnostics resp) = ["Collaborator not found"] <->
       ~ In username (map Parser.CUsername entries)) /\
      (HasError (RDiagnostics resp) = true <->
       ~ In username (map Parser.CUsername entries)) /\
      (forall pre post,
         entries = pre ++ {| Parser.CUsername := username; Parser.AccessLevel := "" |} :: post ->
         ~ In username (map Parser.CUsername pre) ->
         exists m, RState resp = Some m /\
                   RepositoryCollaboratorResource.AccessLevel m = StringValue "read-write")
  end.
Proof.
  intros Hres username resp. subst resp.
  unfold RepositoryCollaboratorResource.Read,
    RepositoryCollaboratorResource.readCollabState, CollabList, bind, Run, ret.
  rewrite Hres. destruct res as [stdout|err]; cbn [fst snd].
  - pose proof (ParseCollabList_no_error (TrimRight_nl stdout)) as HP.
    destruct (Parser.ParseCollabList (TrimRight_nl stdout)) as [es perr].
    cbn [snd] in HP. subst perr. cbn [fst snd]. fold username.
    destruct (RepositoryCollaboratorResource.findCollab es username) as [c|] eqn:Ef.
    + cbn. assert (Hin : In username (map Parser.CUsername es)).
      { destruct (in_dec String.string_dec username (map Parser.CUsername es)) as [H|H];
          [exact H|]. apply findCollab_None in H. congruence. }
      split; [split; [discriminate|tauto]|].
      split; [split; [discriminate|tauto]|].
      intros pre post -> Hpre.
      rewrite (findCollab_first pre
                 {| Parser.CUsername := username; Parser.AccessLevel := "" |}
                 post username eq_refl Hpre) in Ef.
      injection Ef as <-. eexists. split; reflexivity.
    + cbn. pose proof Ef as Hn. apply findCollab_None in Hn.
      split; [tauto|]. split; [tauto|].
      intros pre post -> Hpre. exfalso. apply Hn.
      rewrite map_app, in_app_iff. right. left. reflexivity.
  - cbn. split; reflexivity.
Qed.

(** A user listed without an access level is read as read-write. *)
Lemma Collaborator_Read_listing_witness :
  exists m,
    RState (fst (RepositoryCollaboratorResource.Read (sampleEnv "alice")
                   {| RepositoryCollaboratorResource.ID := StringNull;
                      RepositoryCollaboratorResource.Repository := StringValue "proj";
                      RepositoryCollaboratorResource.Username := StringValue "alice";
                      RepositoryCollaboratorResource.AccessLevel := StringNull |} [])) = Some m /\
    RepositoryCollaboratorResource.AccessLevel m = StringValue "read-write".
Proof.
  refine (proj2 (proj2 (Collaborator_Read_listing (sampleEnv "alice")
            {| RepositoryCollaboratorResource.ID := StringNull;
               RepositoryCollaboratorResource.Repository := StringValue "proj";
               RepositoryCollaboratorResource.Username := StringValue "alice";
               RepositoryCollaboratorResource.AccessLevel := StringNull |}
            [] (inl "alice") _)) [] [] _ _).
  - reflexivity.
  - vm_compute; reflexivity.
  - intros [].
Defined.

Lemma append_empty_r s : s +:+ "" = s.
Proof.
  induction s as [|c r IH]; [reflexivity|].
  change (String c (r +:+ "") = String c r). f_equal. exact IH.
Qed.

Lemma append_assoc a b c : (a +:+ b) +:+ c = a +:+ b +:+ c.
Proof.
  induction a as [|x r IH]; [reflexivity|].
  change (String x ((r +:+ b) +:+ c) = String x (r +:+ b +:+ c)). f_equal. exact IH.
Qed.

Lemma flagValue_unsupplied v : supplied v = false -> flagValue v = None.
Proof. destruct v; simpl; [reflexivity|reflexivity|discriminate]. Qed.

Lemma flagValue_None v :
  flagValue v = None <-> v = StringNull \/ v = StringUnknown \/ v = StringValue "".
Proof.
  destruct v as [| |s]; simpl.
  - tauto.
  - tauto.
  - destruct (String.eqb_spec s "") as [->|E].
    + tauto.
    + split; [discriminate|]. intros [H|[H|H]]; congruence.
Qed.

(** The string RepoCreate puts together, flag by flag. *)
Lemma RepoCreate_cmd_flags env name d n p :
  RepoCreate_cmd env name
    {| optDescription := d; optProjectName := n; optPrivate := p |} =
  "repo create " +:+ name +:+
  createFlags env (if String.eqb d "" then None else Some d)
                  (if String.eqb n "" then None else Some n) p.
Proof.
  unfold RepoCreate_cmd, createFlags. cbn [optDescription optProjectName optPrivate].
  destruct (String.eqb d ""), (String.eqb n ""), p; cbn [negb];
    repeat rewrite append_assoc; repeat rewrite append_empty_r; reflexivity.
Qed.

Ltac run_step :=
  match goal with
  | |- context [run_ ?env ?c ?s] =>
      let e := fresh "e" in
      let s' := fresh "s" in
      let E := fresh "E" in
      let H := fresh "H" in
      pose proof (run_sent env c s) as H;
      destruct (run_ env c s) as [e s'] eqn:E; cbn [snd] in H; subst s'
  end.

Lemma Repository_Create_sent env plan sent :
  exists rest,
    snd (RepositoryResource.Create env plan sent) =
    sent ++
    ("repo create " +:+ ValueString (RepositoryResource.Name plan) +:+
     createFlags env (flagValue (RepositoryResource.Description plan))
                     (flagValue (RepositoryResource.ProjectName plan))
                     (ValueBool (RepositoryResource.Private plan))) :: rest.
Proof.
  unfold RepositoryResource.Create, RepoCreate, bind.
  rewrite RepoCreate_cmd_flags.
  replace (if String.eqb (if negb (String_IsNull (RepositoryResource.Description plan)) &&
                             negb (String_IsUnknown (RepositoryResource.Description plan))
                          then ValueString (RepositoryResource.Description plan) else "") ""
           then None
           else Some (if negb (String_IsNull (RepositoryResource.Description plan)) &&
                         negb (String_IsUnknown (RepositoryResource.Description plan))
                      then ValueString (RepositoryResource.Description plan) else ""))
    with (flagValue (RepositoryResource.Description plan))
    by (destruct (RepositoryResource.Description plan) as [| |d]; cbn; try reflexivity;
        destruct (String.eqb d ""); reflexivity).
  replace (if String.eqb (if negb (String_IsNull (RepositoryResource.ProjectName plan)) &&
                             negb (String_IsUnknown (RepositoryResource.ProjectName plan))
                          then ValueString (RepositoryResource.ProjectName plan) else "") ""
           then None
           else Some (if negb (String_IsNull (RepositoryResource.ProjectName plan)) &&
                         negb (String_IsUnknown (RepositoryResource.ProjectName plan))
                      then ValueString (RepositoryResource.ProjectName plan) else ""))
    with (flagValue (RepositoryResource.ProjectName plan))
    by (destruct (RepositoryResource.ProjectName plan) as [| |d]; cbn; try reflexivity;
        destruct (String.eqb d ""); reflexivity).
  run_step. destruct e as [err|].
  - exists []. reflexivity.
  - destruct (ValueBool (RepositoryResource.Hidden plan)).
    + unfold RepoSetHidden. run_step. destruct e as [err|].
      * eexists. cbn [RepositoryResource.failed ret snd].
        rewrite <- app_assoc. reflexivity.
      * eexists. rewrite Repository_readAndSet_sent, <- !app_assoc. reflexivity.
    + eexists. cbn [ret]. rewrite Repository_readAndSet_sent, <- !app_assoc. reflexivity.
Qed.

Lemma cleared_value v :
  flagValue v = None ->
  (if negb (String_IsNull v) then ValueString v else "") = "".
Proof.
  destruct v as [| |x]; cbn; try reflexivity.
  destruct (String.eqb_spec x "") as [->|]; [reflexivity|discriminate].
Qed.

Lemma cleared_not_Equal v d :
  flagValue v = None -> d <> "" -> String_Equal v (StringValue d) = false.
Proof.
  destruct v as [| |x]; cbn; try reflexivity.
  destruct (String.eqb_spec x "") as [->|]; [|discriminate].
  intros _ Hd. apply String.eqb_neq. congruence.
Qed.

Ltac update_cases :=
  repeat first
    [ match goal with
      | |- context [if negb ?b then _ else _] => destruct b; cbn [negb]
      end
    | progress unfold RepoSetDescription, RepoSetProjectName, RepoSetPrivate, RepoSetHidden
    | progress cbn [ret]
    | run_step;
      match goal with e : option error |- _ => destruct e end;
      cbn [RepositoryResource.failed ret snd] ];
  cbn [RepositoryResource.failed ret snd];
  rewrite ?Repository_readAndSet_sent.



Lemma toStringSet_In l k : k ∈ UserResource.toStringSet l <-> In k l.
Proof.
  induction l as [|x r IH]; simpl.
  - rewrite elem_of_empty. tauto.
  - rewrite elem_of_union, elem_of_singleton, IH. split; intros [H|H]; auto.
Qed.

Lemma removeLoop_accepted env u planSet keys :
  (forall k, accepts env (removeCmd env u k)) ->
  forall sent,
    UserResource.removeLoop env u keys planSet sent =
    (None, sent ++ map (removeCmd env u)
                     (List.filter (fun k => negb (bool_decide (k ∈ planSet))) keys)).
Proof.
  intros Hacc. induction keys as [|k rest IH]; intros sent; simpl.
  - rewrite app_nil_r. reflexivity.
  - destruct (bool_decide (k ∈ planSet)); simpl; [apply IH|].
    unfold bind, UserRemovePublicKey. rewrite (run_accepted _ _ _ (Hacc k)).
    rewrite IH, <- app_assoc. reflexivity.
Qed.

Lemma addLoop_accepted env u stateSet keys :
  (forall k, accepts env (addCmd env u k)) ->
  forall sent,
    UserResource.addLoop env u keys stateSet sent =
    (None, sent ++ map (addCmd env u)
                     (List.filter (fun k => negb (bool_decide (k ∈ stateSet))) keys)).
Proof.
  intros Hacc. induction keys as [|k rest IH]; intros sent; simpl.
  - rewrite app_nil_r. reflexivity.
  - destruct (bool_decide (k ∈ stateSet)); simpl; [apply IH|].
    unfold bind, UserAddPublicKey. rewrite (run_accepted _ _ _ (Hacc k)).
    rewrite IH, <- app_assoc. reflexivity.
Qed.

(** The keys [range] visits that are missing from the other map. *)
Lemma range_diff env (a b : list string) :
  (forall s, rangeOrder env s ≡ₚ elements s) ->
  let l := List.filter
             (fun k => negb (bool_decide (k ∈ UserResource.toStringSet b)))
             (rangeOrder env (UserResource.toStringSet a)) in
  List.NoDup l /\ forall k, In k l <-> In k a /\ ~ In k b.
Proof.
  intros Hperm l. subst l. split.
  - apply List.NoDup_filter.
    apply (Permutation_NoDup (l := elements (UserResource.toStringSet a)));
      [symmetry; apply Hperm|].
    apply NoDup_ListNoDup, NoDup_elements.
  - intros k. rewrite filter_In, negb_true_iff, bool_decide_eq_false.
    rewrite <- list_elem_of_In, (Hperm _), elem_of_elements, !toStringSet_In.
    tauto.
Qed.

Lemma Set_Equal_same_keys v o :
  wfSet v -> wfSet o -> Set_Equal v o = true ->
  forall k, In k (keysOf v) <-> In k (keysOf o).
Proof.
  destruct v as [| |a], o as [| |b]; simpl; try tauto; try discriminate.
  intros Ha Hb H k. apply andb_true_iff in H as [Hlen Hsub].
  apply Nat.eqb_eq in Hlen. rewrite forallb_forall in Hsub.
  assert (Hincl : incl a b).
  { intros x Hx. apply contains_In, Hsub, Hx. }
  split; [apply Hincl|].
  apply (List.NoDup_length_incl Ha); [lia|exact Hincl].
Qed.

Lemma NoDup_only l (a : string) :
  List.NoDup l -> (forall k, In k l <-> k = a) -> l = [a].
Proof.
  intros Hnd H. destruct l as [|x t].
  - exfalso. apply (H a). reflexivity.
  - assert (x = a) as -> by (apply H; left; reflexivity).
    destruct t as [|y t']; [reflexivity|].
    assert (y = a) as -> by (apply H; right; left; reflexivity).
    inversion Hnd as [|? ? Hnin _]. exfalso. apply Hnin. left. reflexivity.
Qed.

Lemma removeLoop_sent env u planSet keys : forall sent,
  exists done rest,
    List.filter (fun k => negb (bool_decide (k ∈ planSet))) keys = done ++ rest /\
    snd (UserResource.removeLoop env u keys planSet sent) =
      sent ++ map (removeCmd env u) done /\
    (fst (UserResource.removeLoop env u keys planSet sent) = None -> rest = []).
Proof.
  induction keys as [|k keys IH]; intros sent; simpl.
  - exists [], []. unfold ret. cbn. rewrite !app_nil_r. repeat split; auto.
  - destruct (bool_decide (k ∈ planSet)); simpl; [apply IH|].
    unfold bind, UserRemovePublicKey. fold (removeCmd env u k). run_step.
    destruct e as [err|].
    + exists [k], (List.filter (fun k => negb (bool_decide (k ∈ planSet))) keys).
      repeat split. discriminate.
    + destruct (IH (sent ++ [removeCmd env u k])) as (done & rest & Hf & Hs & Hn).
      exists (k :: done), rest. rewrite Hf, Hs, <- app_assoc. repeat split. exact Hn.
Qed.

Lemma addLoop_sent env u stateSet keys : forall sent,
  exists done rest,
    List.filter (fun k => negb (bool_decide (k ∈ stateSet))) keys = done ++ rest /\
    snd (UserResource.addLoop env u keys stateSet sent) =
      sent ++ map (addCmd env u) done /\
    (fst (UserResource.addLoop env u keys stateSet sent) = None -> rest = []).
Proof.
  induction keys as [|k keys IH]; intros sent; simpl.
  - exists [], []. unfold ret. cbn. rewrite !app_nil_r. repeat split; auto.
  - destruct (bool_decide (k ∈ stateSet)); simpl; [apply IH|].
    unfold bind, UserAddPublicKey. fold (addCmd env u k). run_step.
    destruct e as [err|].
    + exists [k], (List.filter (fun k => negb (bool_decide (k ∈ stateSet))) keys).
      repeat split. discriminate.
    + destruct (IH (sent ++ [addCmd env u k])) as (done & rest & Hf & Hs & Hn).
      exists (k :: done), rest. rewrite Hf, Hs, <- app_assoc. repeat split. exact Hn.
Qed.

Lemma ElementsAs_wf v :
  wfSet v ->
  (if negb (Set_IsNull v) then ElementsAs v else ([], [])) = (keysOf v, []).
Proof. destruct v; simpl; [reflexivity|contradiction|reflexivity]. Qed.

Lemma User_Update_key_diff_general env plan state sent :
  (forall s, rangeOrder env s ≡ₚ elements s) ->
  wfSet (UserResource.PublicKeys plan) ->
  wfSet (UserResource.PublicKeys state) ->
  let u := ValueString (UserResource.Username plan) in
  exists rm ad,
    List.NoDup rm /\ List.NoDup ad /\
    (forall k, In k rm <->
               In k (keysOf (UserResource.PublicKeys state)) /\
               ~ In k (keysOf (UserResource.PublicKeys plan))) /\
    (forall k, In k ad <->
               In k (keysOf (UserResource.PublicKeys plan)) /\
               ~ In k (keysOf (UserResource.PublicKeys state))) /\
    let full :=
      (if Bool_Equal (UserResource.Admin plan) (UserResource.Admin state) then []
       else [setAdminCmd u (ValueBool (UserResource.Admin plan))]) ++
      map (removeCmd env u) rm ++ map (addCmd env u) ad ++ ["user info " +:+ u] in
    (exists cmds skipped,
       snd (UserResource.Update env plan state sent) = sent ++ cmds /\
       full = cmds ++ skipped) /\
    ((Bool_Equal (UserResource.Admin plan) (UserResource.Admin state) = false ->
      accepts env (setAdminCmd u (ValueBool (UserResource.Admin plan)))) ->
     (forall k, accepts env (removeCmd env u k) /\ accepts env (addCmd env u k)) ->
     snd (UserResource.Update env plan state sent) = sent ++ full).
Proof.
  intros Hperm Wp Ws u.
  unfold UserResource.Update, bind. fold u.
  set (adm := if Bool_Equal (UserResource.Admin plan) (UserResource.Admin state)
              then [] else [setAdminCmd u (ValueBool (UserResource.Admin plan))]).
  set (stage1 := (if negb (Bool_Equal (UserResource.Admin plan) (UserResource.Admin state))
                  then UserSetAdmin env u (ValueBool (UserResource.Admin plan))
                  else ret None) sent).
  assert (Hs1 : snd stage1 = sent ++ adm).
  { subst stage1 adm. destruct (Bool_Equal _ _); cbn [negb].
    - unfold ret. cbn. rewrite app_nil_r. reflexivity.
    - unfold UserSetAdmin. apply run_sent. }
  assert (Hok1 :
    (Bool_Equal (UserResource.Admin plan) (UserResource.Admin state) = false ->
     accepts env (setAdminCmd u (ValueBool (UserResource.Admin plan)))) ->
    fst stage1 = None).
  { subst stage1. intros Hadm. destruct (Bool_Equal _ _); cbn [negb].
    - reflexivity.
    - unfold UserSetAdmin. rewrite (run_accepted _ _ _ (Hadm eq_refl)). reflexivity. }
  clearbody adm. destruct stage1 as [e1 s1]. cbn [fst snd] in Hs1, Hok1. subst s1.
  destruct (Set_Equal (UserResource.PublicKeys plan) (UserResource.PublicKeys state))
    eqn:Eeq; cbn [negb].
  - exists [], [].
    pose proof (Set_Equal_same_keys _ _ Wp Ws Eeq) as Hsame.
    split; [constructor|]. split; [constructor|].
    split; [intros k; simpl; rewrite (Hsame k); tauto|].
    split; [intros k; simpl; rewrite (Hsame k); tauto|].
    cbn [map app]. split.
    + destruct e1 as [err|].
      * exists adm, ["user info " +:+ u]. split; reflexivity.
      * exists (adm ++ ["user info " +:+ u]), [].
        rewrite User_readAndSet_sent, <- app_assoc, app_nil_r. split; reflexivity.
    + intros Hadm _. rewrite (Hok1 Hadm), User_readAndSet_sent, <- app_assoc.
      reflexivity.
  - pose proof (range_diff env (keysOf (UserResource.PublicKeys state))
                  (keysOf (UserResource.PublicKeys plan)) Hperm) as [Hn1 Hc1].
    pose proof (range_diff env (keysOf (UserResource.PublicKeys plan))
                  (keysOf (UserResource.PublicKeys state)) Hperm) as [Hn2 Hc2].
    eexists _, _.
    split; [exact Hn1|]. split; [exact Hn2|]. split; [exact Hc1|]. split; [exact Hc2|].
    rewrite (ElementsAs_wf _ Wp), (ElementsAs_wf _ Ws). cbn [app HasError].
    split.
    + destruct e1 as [err|]; [eexists adm, _; split; reflexivity|].
      destruct (removeLoop_sent env u
                  (UserResource.toStringSet (keysOf (UserResource.PublicKeys plan)))
                  (rangeOrder env
                     (UserResource.toStringSet (keysOf (UserResource.PublicKeys state))))
                  (sent ++ adm)) as (d1 & r1 & Hf1 & Hsn1 & Hr1).
      destruct (UserResource.removeLoop _ _ _ _ _) as [e2 s2]. cbn [fst snd] in Hsn1, Hr1.
      subst s2. rewrite Hf1.
      destruct e2 as [err|].
      * eexists (adm ++ map (removeCmd env u) d1), _.
        cbn [UserResource.failed ret snd]. rewrite map_app, <- !app_assoc.
        split; reflexivity.
      * rewrite (Hr1 eq_refl), app_nil_r.
        destruct (addLoop_sent env u
                    (UserResource.toStringSet (keysOf (UserResource.PublicKeys state)))
                    (rangeOrder env
                       (UserResource.toStringSet (keysOf (UserResource.PublicKeys plan))))
                    ((sent ++ adm) ++ map (removeCmd env u) d1))
          as (d2 & r2 & Hf2 & Hsn2 & Hr2).
        destruct (UserResource.addLoop _ _ _ _ _) as [e3 s3]. cbn [fst snd] in Hsn2, Hr2.
        subst s3. rewrite Hf2.
        destruct e3 as [err|].
        -- eexists (adm ++ map (removeCmd env u) d1 ++ map (addCmd env u) d2), _.
           cbn [UserResource.failed ret snd]. rewrite map_app, <- !app_assoc.
           split; reflexivity.
        -- rewrite (Hr2 eq_refl), app_nil_r.
           eexists (adm ++ map (removeCmd env u) d1 ++ map (addCmd env u) d2 ++
                    ["user info " +:+ u]), [].
           rewrite User_readAndSet_sent, <- !app_assoc, app_nil_r. split; reflexivity.
    + intros Hadm Hkeys. rewrite (Hok1 Hadm).
      rewrite removeLoop_accepted by (intros k; apply Hkeys).
      rewrite addLoop_accepted by (intros k; apply Hkeys).
      rewrite User_readAndSet_sent, <- !app_assoc. reflexivity.
Qed.

(** C1: for key sets [plan] and [state], Update of a user works through
    this sequence: the set-admin command if the admin flag changed, one
    remove-pubkey command for each key of the recorded state that the
    plan lacks, then one add-pubkey command for each key of the plan
    that the state lacks, then the info query.  What it sends is always
    an initial part of that sequence (it stops at the first command the
    remote end rejects), and the whole of it when the commands are
    accepted; a key of both sets is in no command; keys are compared as
    strings.  From the keys A, B to the keys B, C (all distinct, admin
    flag unchanged) it sends the removal of A, the addition of C and the
    info query. *)
Theorem User_Update_key_diff :
  (forall env plan state sent,
     (forall s, rangeOrder env s ≡ₚ elements s) ->
     wfSet (UserResource.PublicKeys plan) ->
     wfSet (UserResource.PublicKeys state) ->
     let u := ValueString (UserResource.Username plan) in
     exists rm ad,
       List.NoDup rm /\ List.NoDup ad /\
       (forall k, In k rm <->
                  In k (keysOf (UserResource.PublicKeys state)) /\
                  ~ In k (keysOf (UserResource.PublicKeys plan))) /\
       (forall k, In k ad <->
                  In k (keysOf (UserResource.PublicKeys plan)) /\
                  ~ In k (keysOf (UserResource.PublicKeys state))) /\
       let full :=
         (if Bool_Equal (UserResource.Admin plan) (UserResource.Admin state) then []
          else [setAdminCmd u (ValueBool (UserResource.Admin plan))]) ++
         map (removeCmd env u) rm ++ map (addCmd env u) ad ++ ["user info " +:+ u] in
       (exists cmds skipped,
          snd (UserResource.Update env plan state sent) = sent ++ cmds /\
          full = cmds ++ skipped) /\
       ((Bool_Equal (UserResource.Admin plan) (UserResource.Admin state) = false ->
         accepts env (setAdminCmd u (ValueBool (UserResource.Admin plan)))) ->
        (forall k, accepts env (removeCmd env u k) /\ accepts env (addCmd env u k)) ->
        snd (UserResource.Update env plan state sent) = sent ++ full)) /\
  (forall env id u adm A B C sent,
     (forall s, rangeOrder env s ≡ₚ elements s) ->
     A <> B -> B <> C -> A <> C ->
     (forall k, accepts env (removeCmd env u k) /\ accepts env (addCmd env u k)) ->
     snd (UserResource.Update env
            {| UserResource.ID := id; UserResource.Username := StringValue u;
               UserResource.Admin := adm; UserResource.PublicKeys := SetValue [B; C] |}
            {| UserResource.ID := id; UserResource.Username := StringValue u;
               UserResource.Admin := adm; UserResource.PublicKeys := SetValue [A; B] |}
            sent) =
     sent ++ [removeCmd env u A; addCmd env u C; "user info " +:+ u]).
Proof.
  split; [exact User_Update_key_diff_general|].
  intros env id u adm A B C sent Hperm HAB HBC HAC Hacc.
  destruct (User_Update_key_diff_general env
              {| UserResource.ID := id; UserResource.Username := StringValue u;
                 UserResource.Admin := adm; UserResource.PublicKeys := SetValue [B; C] |}
              {| UserResource.ID := id; UserResource.Username := StringValue u;
                 UserResource.Admin := adm; UserResource.PublicKeys := SetValue [A; B] |}
              sent Hperm)
    as (rm & ad & Hn1 & Hn2 & Hrm & Had & _ & Htr).
  - cbn. repeat constructor; simpl; intuition congruence.
  - cbn. repeat constructor; simpl; intuition congruence.
  - cbn [UserResource.Admin UserResource.Username UserResource.PublicKeys keysOf
           ValueString] in *.
    rewrite Bool_Equal_refl in Htr.
    assert (rm = [A]) as ->.
    { apply NoDup_only; [exact Hn1|]. intros k. rewrite Hrm. simpl.
      intuition congruence. }
    assert (ad = [C]) as ->.
    { apply NoDup_only; [exact Hn2|]. intros k. rewrite Had. simpl.
      intuition congruence. }
    apply Htr; [discriminate|exact Hacc].
Qed.

(** The keys A, B replaced by B, C. *)
Lemma User_Update_key_diff_witness :
  snd (UserResource.Update (sampleEnv "")
         {| UserResource.ID := StringValue "alice";
            UserResource.Username := StringValue "alice";
            UserResource.Admin := BoolValue false;
            UserResource.PublicKeys := SetValue ["B"; "C"] |}
         {| UserResource.ID := StringValue "alice";
            UserResource.Username := StringValue "alice";
            UserResource.Admin := BoolValue false;
            UserResource.PublicKeys := SetValue ["A"; "B"] |} []) =
  [] ++ [removeCmd (sampleEnv "") "alice" "A"; addCmd (sampleEnv "") "alice" "C";
         "user info " +:+ "alice"].
Proof.
  refine (proj2 User_Update_key_diff (sampleEnv "") (StringValue "alice") "alice"
            (BoolValue false) "A" "B" "C" [] _ _ _ _ _).
  - intros s. reflexivity.
  - discriminate.
  - discriminate.
  - discriminate.
  - intros k. split; intros sent; eexists; reflexivity.
Defined.

End ReconcilerFacts.

(** ** Construction of the client *)
Section AuthFacts.
Import GoStrings ClientAuth AuthSpec Spec.
Variables Signer Conn : Type.

Lemma resolveSigner_not_errNoAuth (env : AuthEnv Signer Conn) cfg :
  resolveSigner env cfg <> inr errNoAuth.
Proof.
  unfold resolveSigner.
  destruct (String.eqb (PrivateKey cfg) ""); cbn [negb].
  - destruct (String.eqb (PrivateKeyPath cfg) ""); cbn [negb]; [discriminate|].
    destruct (ReadFile env (PrivateKeyPath cfg)) as [data|e].
    + destruct (ParsePrivateKey env data) as [sg|e]; [discriminate|].
      discriminate.
    + discriminate.
  - destruct (ParsePrivateKey env (PrivateKey cfg)) as [sg|e]; [discriminate|].
    discriminate.
Qed.

Lemma resolveSigner_inl (env : AuthEnv Signer Conn) cfg sg :
  resolveSigner env cfg = inl sg ->
  match sg with
  | Some s =>
      (PrivateKey cfg <> "" /\ ParsePrivateKey env (PrivateKey cfg) = inl s) \/
      (PrivateKey cfg = "" /\ PrivateKeyPath cfg <> "" /\
       exists data,
         ReadFile env (PrivateKeyPath cfg) = inl data /\ ParsePrivateKey env data = inl s)
  | None => PrivateKey cfg = "" /\ PrivateKeyPath cfg = ""
  end.
Proof.
  unfold resolveSigner.
  destruct (String.eqb_spec (PrivateKey cfg) "") as [Ek|Ek]; cbn [negb].
  - destruct (String.eqb_spec (PrivateKeyPath cfg) "") as [Ep|Ep]; cbn [negb].
    + intros [= <-]. split; assumption.
    + destruct (ReadFile env (PrivateKeyPath cfg)) as [data|e] eqn:ER; [|discriminate].
      destruct (ParsePrivateKey env data) as [s|e] eqn:EP; [|discriminate].
      intros [= <-]. right. split; [exact Ek|]. split; [exact Ep|].
      exists data. split; [reflexivity|exact EP].
  - destruct (ParsePrivateKey env (PrivateKey cfg)) as [s|e] eqn:EP; [|discriminate].
    intros [= <-]. left. split; [exact Ek|reflexivity].
Qed.

Lemma filteredAgentAuth_inl (env : AuthEnv Signer Conn) conn identityFile a :
  filteredAgentAuth env conn identityFile = inl a ->
  exists data want,
    ReadFile env identityFile = inl data /\
    ParseAuthorizedKey env data = inl want /\
    forall l, offered a = inl l -> exists s, l = [s] /\ Marshal env s = want.
Proof.
  unfold filteredAgentAuth.
  destruct (ReadFile env identityFile) as [data|e] eqn:ER; [|discriminate].
  destruct (ParseAuthorizedKey env data) as [want|e] eqn:EP; [|discriminate].
  intros [= <-]. exists data, want. split; [reflexivity|]. split; [exact EP|].
  intros l. cbn [offered].
  destruct (Signers env conn) as [signers|e]; [|discriminate].
  destruct (find _ signers) as [s|] eqn:Ef; [|discriminate].
  intros [= <-]. exists s. split; [reflexivity|].
  apply find_some in Ef as [_ Ef]. apply String.eqb_eq. exact Ef.
Qed.

Lemma resolveAgent_inl (env : AuthEnv Signer Conn) cfg conn auth :
  resolveAgent env cfg = inl (conn, auth) ->
  ((exists a, auth = Some a) <-> agentReachable env cfg) /\
  (IdentityFile cfg <> "" -> forall a, auth = Some a ->
   exists data want,
     ReadFile env (IdentityFile cfg) = inl data /\
     ParseAuthorizedKey env data = inl want /\
     forall l, offered a = inl l -> exists s, l = [s] /\ Marshal env s = want).
Proof.
  unfold resolveAgent, agentReachable.
  destruct (UseAgent cfg).
  2:{ intros [= <- <-]. split; [|discriminate]. split; [intros [a H]|intros [H _]];
      discriminate. }
  destruct (String.eqb_spec (SSH_AUTH_SOCK env) "") as [Es|Es]; cbn [negb].
  { intros [= <- <-]. split; [|discriminate]. split; [intros [a H]; discriminate|].
    intros (_ & H & _). contradiction. }
  destruct (Dial env (SSH_AUTH_SOCK env)) as [c0|e] eqn:Ed.
  2:{ intros [= <- <-]. split; [|discriminate]. split; [intros [a H]; discriminate|].
      intros (_ & _ & c1 & H). discriminate. }
  destruct (String.eqb_spec (IdentityFile cfg) "") as [Ei|Ei]; cbn [negb].
  - intros [= <- <-]. split; [|contradiction].
    split; [|eauto]. intros _. split; [reflexivity|]. split; [exact Es|eauto].
  - destruct (filteredAgentAuth env c0 (IdentityFile cfg)) as [a0|e] eqn:Ef; [|discriminate].
    intros [= <- <-]. split.
    + split; [|eauto]. intros _. split; [reflexivity|]. split; [exact Es|eauto].
    + intros _ a [= <-]. apply (filteredAgentAuth_inl _ _ _ _ Ef).
Qed.

Lemma resolveAgent_not_errNoAuth (env : AuthEnv Signer Conn) cfg :
  resolveAgent env cfg <> inr errNoAuth.
Proof.
  unfold resolveAgent.
  destruct (UseAgent cfg); [|discriminate].
  destruct (String.eqb (SSH_AUTH_SOCK env) ""); cbn [negb]; [discriminate|].
  destruct (Dial env (SSH_AUTH_SOCK env)); [|discriminate].
  destruct (String.eqb (IdentityFile cfg) ""); cbn [negb]; [discriminate|].
  destruct (filteredAgentAuth env _ (IdentityFile cfg)); discriminate.
Qed.

Lemma NewClient_inl (env : AuthEnv Signer Conn) cfg c :
  NewClient env cfg = inl c ->
  exists conn,
    resolveSigner env cfg = inl (signer c) /\
    resolveAgent env cfg = inl (conn, agentAuth c).
Proof.
  unfold NewClient.
  destruct (resolveSigner env cfg) as [sg|e]; [|discriminate].
  destruct (resolveAgent env cfg) as [[conn auth]|e]; [|discriminate].
  destruct sg as [s|], auth as [a|]; try discriminate;
    intros [= <-]; exists conn; split; reflexivity.
Qed.


End AuthFacts.

Section AuthExamples.
Import GoStrings ClientAuth AuthSpec Spec.



End AuthExamples.

(** ** The life cycle of the resources *)
Section LifecycleFacts.
Import GoStrings Client ProviderSpec.

Lemma run_outcome env cmd sent :
  run_ env cmd sent =
  (match remote env sent cmd with inl _ => None | inr e => Some e end, sent ++ [cmd]).
Proof.
  unfold run_, bind, Run, ret. destruct (remote env sent cmd); reflexivity.
Qed.

Lemma sendAll_app env c1 c2 sent :
  sendAll env (c1 ++ c2) sent =
  match sendAll env c1 sent with
  | (Some e, s) => (Some e, s)
  | (None, s) => sendAll env c2 s
  end.
Proof.
  revert sent. induction c1 as [|c r IH]; intros sent; cbn [sendAll app].
  - reflexivity.
  - destruct (remote env sent c); [apply IH|reflexivity].
Qed.

Lemma sendAll_one env c sent :
  sendAll env [c] sent =
  (match remote env sent c with inl _ => None | inr e => Some e end, sent ++ [c]).
Proof. cbn [sendAll]. destruct (remote env sent c); reflexivity. Qed.

(** X1: the Delete of a repository, a user and a collaborator each send
    exactly one command, drop its output, and report one error
    diagnostic carrying the error's text exactly when the command
    fails. *)
Theorem Delete_one_command env sent :
  (forall state,
     let cmd := "repo delete " +:+ ValueString (RepositoryResource.Name state) in
     RepositoryResource.Delete env state sent =
     (match remote env sent cmd with
      | inl _ => []
      | inr err => oneError "Error deleting repository" err
      end, sent ++ [cmd])) /\
  (forall state,
     let cmd := "user delete " +:+ ValueString (UserResource.Username state) in
     UserResource.Delete env state sent =
     (match remote env sent cmd with
      | inl _ => []
      | inr err => oneError "Error deleting user" err
      end, sent ++ [cmd])) /\
  (forall state,
     let cmd := "repo collab remove " +:+
                ValueString (RepositoryCollaboratorResource.Repository state) +:+ " " +:+
                ValueString (RepositoryCollaboratorResource.Username state) in
     RepositoryCollaboratorResource.Delete env state sent =
     (match remote env sent cmd with
      | inl _ => []
      | inr err => oneError "Error removing collaborator" err
      end, sent ++ [cmd])).
Proof.
  repeat split; intros state cmd.
  - unfold RepositoryResource.Delete, RepoDelete, bind. rewrite run_outcome.
    fold cmd. destruct (remote env sent cmd); reflexivity.
  - unfold UserResource.Delete, UserDelete, bind. rewrite run_outcome.
    fold cmd. destruct (remote env sent cmd); reflexivity.
  - unfold RepositoryCollaboratorResource.Delete, CollabRemove, bind. rewrite run_outcome.
    fold cmd. destruct (remote env sent cmd); reflexivity.
Qed.

Lemma Create_flag_value v :
  (if String.eqb (if negb (String_IsNull v) && negb (String_IsUnknown v)
                  then ValueString v else "") ""
   then None
   else Some (if negb (String_IsNull v) && negb (String_IsUnknown v)
              then ValueString v else "")) = flagValue v.
Proof.
  destruct v as [| |d]; reflexivity.
Qed.

Lemma Update_value v :
  (if negb (String_IsNull v) then ValueString v else "") = ValueString v.
Proof. destruct v; reflexivity. Qed.

(** One guarded command of a reconciler: case analysis on its outcome. *)
Ltac send_step :=
  match goal with
  | |- context [run_ ?env ?c ?s] =>
      rewrite (run_outcome env c s); destruct (remote env s c)
  end.

(** X2: a repository Create sends [repo create] with its flags, then
    [repo hidden <name> true] when the plan asks for a hidden repository,
    stopping at the first command that fails: then no state is stored
    and the one diagnostic carries that error.  When none fails it ends
    as the read-back of the state does. *)
Theorem Repository_Create_trace env plan sent :
  let name := ValueString (RepositoryResource.Name plan) in
  let resp := fst (RepositoryResource.Create env plan sent) in
  match sendAll env (repoCreation env plan) sent with
  | (Some err, s) =>
      snd (RepositoryResource.Create env plan sent) = s /\
      RState resp = None /\
      exists summary, RDiagnostics resp = oneError summary err
  | (None, s) =>
      RepositoryResource.Create env plan sent = RepositoryResource.readAndSet env name plan s
  end.
Proof.
  intros name resp. subst resp.
  unfold RepositoryResource.Create, RepoCreate, repoCreation, bind.
  rewrite RepoCreate_cmd_flags, !Create_flag_value. fold name.
  cbn [sendAll]. send_step.
  - destruct (ValueBool (RepositoryResource.Hidden plan)).
    + unfold RepoSetHidden. cbn [sendAll fmt_bool].
      change (" " +:+ "true") with " true". send_step.
      * reflexivity.
      * cbn. split; [reflexivity|]. split; [reflexivity|]. eexists. reflexivity.
    + reflexivity.
  - cbn. split; [reflexivity|]. split; [reflexivity|]. eexists. reflexivity.
Qed.

(** X3: a repository Update sends one command for each attribute whose
    planned value differs from the state, in the order description,
    project name, private, hidden, and nothing for the others; it stops
    at the first that fails, storing no state and reporting that error.
    When none fails it ends as the read-back of the state does. *)
Theorem Repository_Update_trace env plan state sent :
  let name := ValueString (RepositoryResource.Name plan) in
  let resp := fst (RepositoryResource.Update env plan state sent) in
  match sendAll env (repoChanges env plan state) sent with
  | (Some err, s) =>
      snd (RepositoryResource.Update env plan state sent) = s /\
      RState resp = None /\
      exists summary, RDiagnostics resp = oneError summary err
  | (None, s) =>
      RepositoryResource.Update env plan state sent =
      RepositoryResource.readAndSet env name plan s
  end.
Proof.
  intros name resp. subst resp.
  unfold RepositoryResource.Update, repoChanges, bind.
  rewrite !Update_value. fold name.
  unfold RepoSetDescription, RepoSetProjectName, RepoSetPrivate, RepoSetHidden.
  destruct (String_Equal (RepositoryResource.Description plan)
              (RepositoryResource.Description state));
  destruct (String_Equal (RepositoryResource.ProjectName plan)
              (RepositoryResource.ProjectName state));
  destruct (Bool_Equal (RepositoryResource.Private plan)
              (RepositoryResource.Private state));
  destruct (Bool_Equal (RepositoryResource.Hidden plan)
              (RepositoryResource.Hidden state));
  cbn [negb app sendAll ret];
  repeat first
    [ reflexivity
    | send_step; cbn [sendAll ret]
    | (split; [reflexivity|]; split; [reflexivity|]; eexists; reflexivity) ].
Qed.

Lemma ParseRepoInfo_inl output r :
  Parser.ParseRepoInfo output = inl r -> Parser.Repository r <> "".
Proof.
  unfold Parser.ParseRepoInfo. cbv zeta.
  destruct (String.eqb_spec
              (Parser.Repository
                 (fold_left Parser.repoAssign (Parser.parseKeyValues output)
                    Parser.emptyRepoInfo)) "") as [E|E].
  - discriminate.
  - intros [= <-]. exact E.
Qed.

Lemma ParseUserInfo_inl output r :
  Parser.ParseUserInfo output = inl r -> Parser.Username r <> "".
Proof.
  unfold Parser.ParseUserInfo, Parser.userFinish.
  destruct (String.eqb_spec
              (Parser.uName (Parser.userLoop (Split_nl output) Parser.userScan0)) "")
    as [E|E].
  - discriminate.
  - intros [= <-]. exact E.
Qed.

Lemma Repository_readAndSet_ok env name plan sent :
  repoStateOk name (fst (RepositoryResource.readAndSet env name plan sent)).
Proof.
  unfold RepositoryResource.readAndSet, RepositoryResource.readRepoState, RepoInfo,
    bind, Run, ret.
  destruct (remote env sent ("repo info " +:+ name)) as [out|err]; cbn.
  - destruct (Parser.ParseRepoInfo (TrimRight_nl out)) as [info|err] eqn:E; cbn.
    + unfold repoStateOk, knownString, knownBool. cbn.
      repeat split; eauto using ParseRepoInfo_inl.
    + unfold repoStateOk. cbn. discriminate.
  - unfold repoStateOk. cbn. discriminate.
Qed.

Ltac no_state := solve [cbv; discriminate].

(** X4: Create, Read, Update and ImportState of a repository leave either
    a state and no diagnostic, or a diagnostic and no state.  A stored
    state has the name used in the commands as its ID, the non-empty
    name the server reported, and no null or unknown attribute. *)
Theorem Repository_state_invariant env sent :
  (forall plan,
     repoStateOk (ValueString (RepositoryResource.Name plan))
       (fst (RepositoryResource.Create env plan sent))) /\
  (forall state,
     repoStateOk (ValueString (RepositoryResource.Name state))
       (fst (RepositoryResource.Read env state sent))) /\
  (forall plan state,
     repoStateOk (ValueString (RepositoryResource.Name plan))
       (fst (RepositoryResource.Update env plan state sent))) /\
  (forall id, repoStateOk id (fst (RepositoryResource.ImportState env id sent))).
Proof.
  repeat split.
  - intros plan. unfold RepositoryResource.Create, RepoCreate, bind.
    send_step; [|no_state].
    destruct (ValueBool (RepositoryResource.Hidden plan)).
    + unfold RepoSetHidden. send_step; [|no_state]. apply Repository_readAndSet_ok.
    + apply Repository_readAndSet_ok.
  - intros state. apply Repository_readAndSet_ok.
  - intros plan state. unfold RepositoryResource.Update, bind.
    unfold RepoSetDescription, RepoSetProjectName, RepoSetPrivate, RepoSetHidden.
    destruct (String_Equal (RepositoryResource.Description plan)
                (RepositoryResource.Description state));
    destruct (String_Equal (RepositoryResource.ProjectName plan)
                (RepositoryResource.ProjectName state));
    destruct (Bool_Equal (RepositoryResource.Private plan)
                (RepositoryResource.Private state));
    destruct (Bool_Equal (RepositoryResource.Hidden plan)
                (RepositoryResource.Hidden state));
    cbn [negb ret];
    repeat first
      [ apply Repository_readAndSet_ok
      | no_state
      | send_step; cbn [ret] ].
  - intros id. apply Repository_readAndSet_ok.
Qed.

Lemma insertSorted_HdRel a k l :
  String.leb a k = true ->
  HdRel (fun a b => String.leb a b = true) a l ->
  HdRel (fun a b => String.leb a b = true) a (UserResource.insertSorted k l).
Proof.
  intros Hk H. destruct l as [|x r]; cbn.
  - constructor. exact Hk.
  - destruct (String.leb k x); constructor; [exact Hk|].
    inversion H; assumption.
Qed.

Lemma insertSorted_Sorted k l :
  sortedStrings l -> sortedStrings (UserResource.insertSorted k l).
Proof.
  unfold sortedStrings. induction 1 as [|x r Hs IH Hhd]; cbn.
  - repeat constructor.
  - destruct (String.leb k x) eqn:E.
    + constructor; [constructor; assumption|]. constructor. exact E.
    + constructor; [exact IH|]. apply insertSorted_HdRel; [|exact Hhd].
      destruct (String.leb_total k x) as [H|H]; [congruence|exact H].
Qed.

Lemma sortStrings_Sorted l : sortedStrings (UserResource.sortStrings l).
Proof.
  induction l as [|k r IH]; cbn.
  - constructor.
  - apply insertSorted_Sorted. exact IH.
Qed.

Lemma insertSorted_Permutation k l : UserResource.insertSorted k l ≡ₚ k :: l.
Proof.
  induction l as [|x r IH]; cbn.
  - reflexivity.
  - destruct (String.leb k x).
    + reflexivity.
    + rewrite IH. apply perm_swap.
Qed.

Lemma sortStrings_Permutation l : UserResource.sortStrings l ≡ₚ l.
Proof.
  induction l as [|k r IH]; cbn.
  - reflexivity.
  - rewrite insertSorted_Permutation, IH. reflexivity.
Qed.

Lemma sortStrings_nil l : UserResource.sortStrings l = [] -> l = [].
Proof.
  intros H. apply Permutation_nil. rewrite <- H. apply sortStrings_Permutation.
Qed.

Lemma User_readAndSet_ok env username plan sent :
  userStateOk username (UserResource.PublicKeys plan)
    (fst (UserResource.readAndSet env username plan sent)).
Proof.
  unfold UserResource.readAndSet, UserResource.readUserState, UserInfo, bind, Run, ret.
  destruct (remote env sent ("user info " +:+ username)) as [out|err]; cbn.
  - destruct (Parser.ParseUserInfo (TrimRight_nl out)) as [info|err] eqn:E; cbn.
    + unfold userStateOk, knownBool. cbn.
      split; [reflexivity|]. split; [reflexivity|].
      split; [eauto using ParseUserInfo_inl|]. split; [eauto|].
      destruct (Parser.PublicKeys info) as [|k ks] eqn:EK.
      * destruct (UserResource.PublicKeys plan); cbn.
        -- reflexivity.
        -- split; [constructor|]. discriminate.
        -- split; [constructor|]. discriminate.
      * split; [apply sortStrings_Sorted|].
        intros H. apply sortStrings_nil in H. discriminate.
    + unfold userStateOk. cbn. discriminate.
  - unfold userStateOk. cbn. discriminate.
Qed.

Lemma keyFlags_fold env keys : forall acc,
  fold_left (fun cmd key => cmd +:+ " -k " +:+ quote env key) keys acc =
  acc +:+ keyFlags env keys.
Proof.
  induction keys as [|k r IH]; intros acc; cbn [fold_left keyFlags].
  - rewrite append_empty_r. reflexivity.
  - rewrite IH. rewrite !append_assoc. reflexivity.
Qed.

Lemma UserCreate_cmd_flags env username admin keys :
  UserCreate_cmd env username {| optAdmin := admin; optPublicKeys := keys |} =
  "user create " +:+ username +:+ (if admin then " -a" else "") +:+ keyFlags env keys.
Proof.
  unfold UserCreate_cmd. cbn [optAdmin optPublicKeys].
  rewrite keyFlags_fold. destruct admin.
  - rewrite !append_assoc. reflexivity.
  - rewrite append_assoc. reflexivity.
Qed.

(** X5: a user Create sends one [user create] command, with [-a] for an
    administrator and one [-k] flag per planned key in the order of the
    plan, and none for a null or unknown key set.  When the command
    fails nothing else is sent and no state is stored; otherwise the
    user is read back. *)
Theorem User_Create_trace env plan sent :
  let username := ValueString (UserResource.Username plan) in
  let cmd := userCreateCmd env plan in
  UserResource.Create env plan sent =
  match remote env sent cmd with
  | inr err =>
      ({| RDiagnostics := oneError "Error creating user" err; RState := None |},
       sent ++ [cmd])
  | inl _ => UserResource.readAndSet env username plan (sent ++ [cmd])
  end.
Proof.
  intros username cmd. subst cmd. unfold userCreateCmd, UserResource.Create.
  fold username.
  destruct (UserResource.PublicKeys plan) as [| |keys];
    cbn [Set_IsNull Set_IsUnknown negb andb ElementsAs HasError keysOf];
    unfold UserCreate, bind; rewrite UserCreate_cmd_flags, run_outcome;
    destruct (remote env sent _); reflexivity.
Qed.

Lemma Create_keys v :
  (if negb (Set_IsNull v) && negb (Set_IsUnknown v) then ElementsAs v else ([], [])) =
  (keysOf v, []).
Proof. destruct v; reflexivity. Qed.

Lemma HasError_true d : HasError d = true -> d <> [].
Proof. destruct d; [discriminate|discriminate]. Qed.



Lemma CollabAdd_cmd_level plan :
  CollabAdd_cmd (ValueString (RepositoryCollaboratorResource.Repository plan))
    (ValueString (RepositoryCollaboratorResource.Username plan))
    (ValueString (RepositoryCollaboratorResource.AccessLevel plan)) =
  collabAddCmd plan.
Proof.
  unfold CollabAdd_cmd, collabAddCmd.
  destruct (RepositoryCollaboratorResource.AccessLevel plan) as [| |l];
    cbn [ValueString].
  - change (String.eqb "" "") with true. cbn [negb].
    rewrite append_empty_r. reflexivity.
  - change (String.eqb "" "") with true. cbn [negb].
    rewrite append_empty_r. reflexivity.
  - destruct (String.eqb l ""); cbn [negb].
    + rewrite append_empty_r. reflexivity.
    + rewrite !append_assoc. reflexivity.
Qed.

(** X8: Create and Update of a collaborator send the same single
    [repo collab add] command, built from the plan alone and without
    access level when the plan has none; Update does so whatever the
    state is.  When the command fails nothing else is sent and no state
    is stored, and only the summary of the diagnostic tells the two
    apart; otherwise both read the collaborator back. *)
Theorem Collaborator_Create_Update_trace env plan sent :
  let repo := ValueString (RepositoryCollaboratorResource.Repository plan) in
  let username := ValueString (RepositoryCollaboratorResource.Username plan) in
  let cmd := collabAddCmd plan in
  match remote env sent cmd with
  | inr err =>
      RepositoryCollaboratorResource.Create env plan sent =
        ({| RDiagnostics := oneError "Error adding collaborator" err; RState := None |},
         sent ++ [cmd]) /\
      RepositoryCollaboratorResource.Update env plan sent =
        ({| RDiagnostics := oneError "Error updating collaborator" err; RState := None |},
         sent ++ [cmd])
  | inl _ =>
      RepositoryCollaboratorResource.Create env plan sent =
        RepositoryCollaboratorResource.readAndSet env repo username plan (sent ++ [cmd]) /\
      RepositoryCollaboratorResource.Update env plan sent =
        RepositoryCollaboratorResource.readAndSet env repo username plan (sent ++ [cmd])
  end.
Proof.
  intros repo username cmd. subst cmd.
  unfold RepositoryCollaboratorResource.Create, RepositoryCollaboratorResource.Update,
    CollabAdd, bind.
  rewrite CollabAdd_cmd_level, run_outcome.
  destruct (remote env sent (collabAddCmd plan)); split; reflexivity.
Qed.

Lemma Collab_readAndSet_ok env repo username plan sent :
  collabStateOk repo username
    (fst (RepositoryCollaboratorResource.readAndSet env repo username plan sent)).
Proof.
  unfold RepositoryCollaboratorResource.readAndSet,
    RepositoryCollaboratorResource.readCollabState, CollabList, bind, Run, ret.
  destruct (remote env sent ("repo collab list " +:+ repo)) as [out|err]; cbn [fst snd].
  - pose proof (ParseCollabList_no_error (TrimRight_nl out)) as HP.
    destruct (Parser.ParseCollabList (TrimRight_nl out)) as [es perr].
    cbn [snd] in HP. subst perr. cbn [fst snd].
    destruct (RepositoryCollaboratorResource.findCollab es username) as [c|].
    + unfold collabStateOk. cbn. repeat split.
      destruct (String.eqb_spec (Parser.AccessLevel c) "") as [E|E].
      * eexists. split; [reflexivity|discriminate].
      * eexists. split; [reflexivity|exact E].
    + unfold collabStateOk. cbn. discriminate.
  - unfold collabStateOk. cbn. discriminate.
Qed.

(** X9: Create, Read and Update of a collaborator leave either a state
    and no diagnostic, or a diagnostic and no state.  A stored state
    names the repository and the user of the plan or state, has
    [repository/username] as its ID, and an access level that is never
    empty. *)
Theorem Collaborator_state_invariant env sent :
  (forall plan,
     collabStateOk (ValueString (RepositoryCollaboratorResource.Repository plan))
       (ValueString (RepositoryCollaboratorResource.Username plan))
       (fst (RepositoryCollaboratorResource.Create env plan sent))) /\
  (forall state,
     collabStateOk (ValueString (RepositoryCollaboratorResource.Repository state))
       (ValueString (RepositoryCollaboratorResource.Username state))
       (fst (RepositoryCollaboratorResource.Read env state sent))) /\
  (forall plan,
     collabStateOk (ValueString (RepositoryCollaboratorResource.Repository plan))
       (ValueString (RepositoryCollaboratorResource.Username plan))
       (fst (RepositoryCollaboratorResource.Update env plan sent))).
Proof.
  repeat split.
  - intros plan. unfold RepositoryCollaboratorResource.Create, CollabAdd, bind.
    send_step; [apply Collab_readAndSet_ok|no_state].
  - intros state.
    exact (Collab_readAndSet_ok env _ _ state sent).
  - intros plan. unfold RepositoryCollaboratorResource.Update, CollabAdd, bind.
    send_step; [apply Collab_readAndSet_ok|no_state].
Qed.

Lemma cutSlash_None id : noSlash id = true -> cutSlash id = None.
Proof.
  induction id as [|c r IH]; cbn; [reflexivity|].
  destruct (Ascii.eqb c "/"); cbn; [discriminate|].
  intros H. rewrite (IH H). reflexivity.
Qed.

Lemma cutSlash_first repo rest :
  noSlash repo = true -> cutSlash (repo +:+ String "/" rest) = Some (repo, rest).
Proof.
  induction repo as [|c r IH]; intros H.
  - reflexivity.
  - change (String c r +:+ String "/" rest) with (String c (r +:+ String "/" rest)).
    cbn [cutSlash noSlash] in *.
    destruct (Ascii.eqb c "/"); cbn in H; [discriminate|].
    rewrite (IH H). reflexivity.
Qed.

(** X10: ImportState of a collaborator cuts the ID at its first slash.
    An ID without slash is refused with "Invalid import ID", nothing is
    sent; for [repo/rest] with no slash in [repo] the collaborator [rest]
    of [repo] is read, so a user part may contain slashes and a
    repository part may not; the state it stores obeys the same rules as
    after a Read. *)
Theorem Collaborator_ImportState_split env sent :
  (forall id,
     noSlash id = true ->
     RepositoryCollaboratorResource.ImportState env id sent =
     ({| RDiagnostics :=
           [{| Summary := "Invalid import ID";
               Detail := "Expected format: repository/username, got: " +:+ id |}];
         RState := None |}, sent)) /\
  (forall repo rest,
     noSlash repo = true ->
     RepositoryCollaboratorResource.ImportState env (repo +:+ "/" +:+ rest) sent =
     RepositoryCollaboratorResource.readAndSet env repo rest
       {| RepositoryCollaboratorResource.ID := StringNull;
          RepositoryCollaboratorResource.Repository := StringValue repo;
          RepositoryCollaboratorResource.Username := StringValue rest;
          RepositoryCollaboratorResource.AccessLevel := StringNull |} sent /\
     snd (RepositoryCollaboratorResource.ImportState env (repo +:+ "/" +:+ rest) sent) =
       sent ++ ["repo collab list " +:+ repo] /\
     collabStateOk repo rest
       (fst (RepositoryCollaboratorResource.ImportState env (repo +:+ "/" +:+ rest) sent))).
Proof.
  split.
  - intros id H. unfold RepositoryCollaboratorResource.ImportState, SplitN_slash_2.
    rewrite (cutSlash_None id H). reflexivity.
  - intros repo rest H.
    assert (E : RepositoryCollaboratorResource.ImportState env (repo +:+ "/" +:+ rest) sent =
                RepositoryCollaboratorResource.readAndSet env repo rest
                  {| RepositoryCollaboratorResource.ID := StringNull;
                     RepositoryCollaboratorResource.Repository := StringValue repo;
                     RepositoryCollaboratorResource.Username := StringValue rest;
                     RepositoryCollaboratorResource.AccessLevel := StringNull |} sent).
    { unfold RepositoryCollaboratorResource.ImportState, SplitN_slash_2.
      change ("/" +:+ rest) with (String "/" rest).
      rewrite (cutSlash_first repo rest H). reflexivity. }
    split; [exact E|]. rewrite E. split; [|apply Collab_readAndSet_ok].
    unfold RepositoryCollaboratorResource.readAndSet,
      RepositoryCollaboratorResource.readCollabState, CollabList, bind, Run, ret.
    destruct (remote env sent ("repo collab list " +:+ repo)) as [out|err]; cbn [fst snd].
    + destruct (Parser.ParseCollabList (TrimRight_nl out)) as [es [perr|]]; cbn [fst snd].
      * reflexivity.
      * destruct (RepositoryCollaboratorResource.findCollab es rest); reflexivity.
    + reflexivity.
Qed.

(** Two imports: an ID without slash, and one with two. *)
Lemma Collaborator_ImportState_split_witness :
  RepositoryCollaboratorResource.ImportState (sampleEnv "bob read-only") "myrepo" [] =
    ({| RDiagnostics :=
          [{| Summary := "Invalid import ID";
              Detail := "Expected format: repository/username, got: myrepo" |}];
        RState := None |}, []) /\
  snd (RepositoryCollaboratorResource.ImportState (sampleEnv "bob/x read-only")
         "myrepo/bob/x" []) = ["repo collab list myrepo"].
Proof.
  split.
  - exact (proj1 (Collaborator_ImportState_split (sampleEnv "bob read-only") [])
             "myrepo" eq_refl).
  - exact (proj1 (proj2 (proj2 (Collaborator_ImportState_split
                                  (sampleEnv "bob/x read-only") [])
                                "myrepo" "bob/x" eq_refl))).
Defined.

Ltac remote_cases :=
  repeat match goal with
         | |- context [remote ?e ?s ?c] => destruct (remote e s c); cbn
         end.

Ltac settings_unfold :=
  unfold ServerSettingsResource.Update, ServerSettingsResource.Create,
    ServerSettingsResource.Read, ServerSettingsResource.ImportState,
    ServerSettingsResource.applySettings, ServerSettingsResource.readAndSet,
    ServerSettingsResource.readSettingsState,
    SettingsSetAllowKeyless, SettingsSetAnonAccess,
    SettingsGetAllowKeyless, SettingsGetAnonAccess, run_, Run, bind, ret,
    settingsChanges, settingsQueries.

(** X11: Create and Update of the server settings are the same
    function of the plan: one set command for each setting the plan
    knows, allow-keyless before anon-access, none for a null or unknown
    one, then the two queries, stopping at the first command that fails.
    Read and ImportState send the two queries only.  A state is stored
    exactly when no command failed; a failure leaves one diagnostic with
    its error. *)
Theorem ServerSettings_trace env sent :
  (forall plan,
     let run := ServerSettingsResource.Create env plan sent in
     ServerSettingsResource.Update env plan sent = run /\
     match sendAll env (settingsChanges plan ++ settingsQueries) sent with
     | (Some err, s) =>
         snd run = s /\ RState (fst run) = None /\
         exists summary, RDiagnostics (fst run) = oneError summary err
     | (None, s) =>
         snd run = s /\ RDiagnostics (fst run) = [] /\
         exists m, RState (fst run) = Some m
     end) /\
  (forall state,
     let run := ServerSettingsResource.Read env state sent in
     match sendAll env settingsQueries sent with
     | (Some err, s) =>
         snd run = s /\ RState (fst run) = None /\
         exists summary, RDiagnostics (fst run) = oneError summary err
     | (None, s) =>
         snd run = s /\ RDiagnostics (fst run) = [] /\
         exists m, RState (fst run) = Some m
     end) /\
  (let run := ServerSettingsResource.ImportState env sent in
   match sendAll env settingsQueries sent with
   | (Some err, s) =>
       snd run = s /\ RState (fst run) = None /\
       exists summary, RDiagnostics (fst run) = oneError summary err
   | (None, s) =>
       snd run = s /\ RDiagnostics (fst run) = [] /\
       exists m, RState (fst run) = Some m
   end).
Proof.
  split; [|split].
  - intros plan run. split; [reflexivity|]. subst run. settings_unfold.
    destruct (ServerSettingsResource.AllowKeyless plan) as [| |b];
      destruct (ServerSettingsResource.AnonAccess plan) as [| |l];
      cbn; remote_cases;
      (split; [reflexivity|]); (split; [reflexivity|]); eexists; reflexivity.
  - intros state run. subst run. settings_unfold. cbn. remote_cases;
      (split; [reflexivity|]); (split; [reflexivity|]); eexists; reflexivity.
  - intros run. subst run. settings_unfold. cbn. remote_cases;
      (split; [reflexivity|]); (split; [reflexivity|]); eexists; reflexivity.
Qed.


Lemma TrimRight_nl_spec s :
  exists k,
    s = TrimRight_nl s +:+ Spec.newlines k /\
    HasSuffix (TrimRight_nl s) (String nl "") = false.
Proof.
  induction s as [|c r (k & Hk & Hs)].
  - exists 0%nat. split; reflexivity.
  - cbn [TrimRight_nl]. destruct (TrimRight_nl r) as [|c2 r2] eqn:E.
    + change ("" +:+ Spec.newlines k) with (Spec.newlines k) in Hk.
      destruct (Ascii.eqb_spec c nl) as [->|Hc].
      * exists (S k). split; [rewrite Hk at 1; reflexivity|reflexivity].
      * exists k. split; [rewrite Hk at 1; reflexivity|].
        cbn [HasSuffix String.eqb]. apply Ascii.eqb_neq in Hc. rewrite Hc. reflexivity.
    + exists k. split.
      * rewrite Hk at 1. reflexivity.
      * cbn [HasSuffix] in *. rewrite Hs, orb_false_r.
        cbn [String.eqb]. destruct (Ascii.eqb c nl); reflexivity.
Qed.

(** X19: Run records the command it is given, whatever the outcome.
    On success its output is the captured stdout without its trailing
    newlines, nothing else removed, and does not end in a newline; on
    failure the output is empty and the error is returned. *)
Theorem Run_output env cmd sent :
  snd (Run env cmd sent) = sent ++ [cmd] /\
  match remote env sent cmd with
  | inl stdout =>
      snd (fst (Run env cmd sent)) = None /\
      HasSuffix (fst (fst (Run env cmd sent))) (String nl "") = false /\
      exists k, stdout = fst (fst (Run env cmd sent)) +:+ Spec.newlines k
  | inr err => fst (Run env cmd sent) = ("", Some err)
  end.
Proof.
  unfold Run. destruct (remote env sent cmd) as [out|err]; cbn [fst snd].
  - split; [reflexivity|]. split; [reflexivity|].
    destruct (TrimRight_nl_spec out) as (k & Hk & Hs).
    split; [exact Hs|]. exists k. exact Hk.
  - split; reflexivity.
Qed.

Lemma TrimRightSpace_TrimRight_nl s :
  TrimRightSpace (TrimRight_nl s) = TrimRightSpace s.
Proof.
  induction s as [|c r IH]; [reflexivity|].
  cbn [TrimRight_nl TrimRightSpace].
  destruct (TrimRight_nl r) as [|c2 r2] eqn:E.
  - cbn [TrimRightSpace] in IH. rewrite <- IH.
    destruct (Ascii.eqb_spec c nl) as [->|Hc]; [reflexivity|].
    cbn [TrimRightSpace]. reflexivity.
  - cbn [TrimRightSpace] in *. rewrite IH. reflexivity.
Qed.

Lemma TrimSpace_TrimRight_nl s : TrimSpace (TrimRight_nl s) = TrimSpace s.
Proof.
  induction s as [|c r IH]; [reflexivity|].
  destruct (isSpace c) eqn:Ec.
  - assert (Hs : TrimSpace (String c r) = TrimSpace r).
    { unfold TrimSpace. cbn [TrimLeftSpace]. rewrite Ec. reflexivity. }
    rewrite Hs, <- IH. cbn [TrimRight_nl].
    destruct (TrimRight_nl r) as [|c2 r2].
    + destruct (Ascii.eqb c nl); [reflexivity|].
      unfold TrimSpace. cbn [TrimLeftSpace]. rewrite Ec. reflexivity.
    + unfold TrimSpace. cbn [TrimLeftSpace]. rewrite Ec. reflexivity.
  - assert (Hn : TrimRight_nl (String c r) = String c (TrimRight_nl r)).
    { cbn [TrimRight_nl]. destruct (TrimRight_nl r); [|reflexivity].
      destruct (Ascii.eqb_spec c nl) as [->|]; [discriminate Ec|reflexivity]. }
    rewrite Hn. unfold TrimSpace. cbn [TrimLeftSpace]. rewrite Ec.
    rewrite <- Hn. apply TrimRightSpace_TrimRight_nl.
Qed.



(** X26: Read and ImportState of a repository and of a user change
    nothing on the server: each sends exactly one command, the query
    [repo info] or [user info] for the name in the state or for the
    import ID, whether it succeeds or not. *)
Theorem Read_ImportState_queries env sent :
  (forall state,
     snd (RepositoryResource.Read env state sent) =
     sent ++ ["repo info " +:+ ValueString (RepositoryResource.Name state)]) /\
  (forall id,
     snd (RepositoryResource.ImportState env id sent) = sent ++ ["repo info " +:+ id]) /\
  (forall state,
     snd (UserResource.Read env state sent) =
     sent ++ ["user info " +:+ ValueString (UserResource.Username state)]) /\
  (forall id,
     snd (UserResource.ImportState env id sent) = sent ++ ["user info " +:+ id]).
Proof.
  repeat split.
  - intros state. apply Repository_readAndSet_sent.
  - intros id. unfold RepositoryResource.ImportState. cbv zeta.
    apply Repository_readAndSet_sent.
  - intros state. apply User_readAndSet_sent.
  - intros id. unfold UserResource.ImportState. cbv zeta.
    apply User_readAndSet_sent.
Qed.

End LifecycleFacts.

(** ** Parsing what the server prints *)
Section RoundTripFacts.
Import GoStrings Parser Spec.

Lemma Split_nl_single l : noNewline l = true -> Split_nl l = [l].
Proof.
  induction l as [|c r IH]; cbn [noNewline Split_nl]; [reflexivity|].
  destruct (Ascii.eqb c nl); cbn [negb andb]; [discriminate|].
  intros H. rewrite (IH H). reflexivity.
Qed.

Lemma Split_nl_line l rest :
  noNewline l = true -> Split_nl (l +:+ String nl rest) = l :: Split_nl rest.
Proof.
  induction l as [|c r IH]; intros H.
  - reflexivity.
  - change (String c r +:+ String nl rest) with (String c (r +:+ String nl rest)).
    cbn [noNewline Split_nl] in *.
    destruct (Ascii.eqb c nl); cbn [negb andb] in H; [discriminate|].
    rewrite (IH H). reflexivity.
Qed.

Lemma Split_nl_join ls :
  ls <> [] -> Forall (fun l => noNewline l = true) ls -> Split_nl (joinLines ls) = ls.
Proof.
  induction ls as [|l rest IH]; intros Hne Hall; [congruence|].
  inversion Hall as [|? ? Hl Hrest]; subst.
  destruct rest as [|l2 rest].
  - cbn [joinLines]. apply Split_nl_single. exact Hl.
  - change (joinLines (l :: l2 :: rest)) with (l +:+ String nl (joinLines (l2 :: rest))).
    rewrite (Split_nl_line _ _ Hl). f_equal. apply IH; [discriminate|exact Hrest].
Qed.

Lemma HasPrefix_nil s : HasPrefix s "" = true.
Proof. destruct s; reflexivity. Qed.

Lemma Index_label lbl v :
  Index lbl ": " < 0 ->
  Index (lbl +:+ ": " +:+ v) ": " = Z.of_nat (String.length lbl).
Proof.
  induction lbl as [|c r IH]; intros H.
  - destruct v; reflexivity.
  - change (String c r +:+ ": " +:+ v) with (String c (r +:+ ": " +:+ v)).
    cbn [Index] in H. cbn [Index String.length].
    destruct (HasPrefix (String c r) ": ") eqn:Ep; [lia|].
    assert (Hr : Index r ": " < 0).
    { destruct (Index r ": " <? 0) eqn:E; [apply Z.ltb_lt; exact E|].
      apply Z.ltb_ge in E. lia. }
    rewrite (IH Hr).
    assert (Ep' : HasPrefix (String c (r +:+ ": " +:+ v)) ": " = false).
    { cbn [HasPrefix] in *. destruct (Ascii.eqb c ":"); [|reflexivity].
      cbn [andb] in *. destruct r as [|c' r']; [reflexivity|].
      change (String c' r' +:+ ": " +:+ v) with (String c' (r' +:+ ": " +:+ v)).
      cbn [HasPrefix] in *. rewrite !HasPrefix_nil in *. exact Ep. }
    rewrite Ep'.
    destruct (Z.of_nat (String.length r) <? 0) eqn:E; [apply Z.ltb_lt in E; lia|lia].
Qed.

Lemma substring_all s : String.substring 0 (String.length s) s = s.
Proof.
  induction s as [|c r IH]; [reflexivity|]. cbn. rewrite IH. reflexivity.
Qed.

Lemma slice_to_app a b : slice_to (a +:+ b) (Z.of_nat (String.length a)) = a.
Proof.
  unfold slice_to. rewrite Nat2Z.id.
  induction a as [|c r IH]; [destruct b; reflexivity|].
  change (String c r +:+ b) with (String c (r +:+ b)). cbn. rewrite IH. reflexivity.
Qed.

Lemma slice_from_app a b : slice_from (a +:+ b) (Z.of_nat (String.length a)) = b.
Proof.
  unfold slice_from. rewrite Nat2Z.id.
  induction a as [|c r IH].
  - change ("" +:+ b) with b. cbn [String.length]. rewrite Nat.sub_0_r.
    apply substring_all.
  - change (String c r +:+ b) with (String c (r +:+ b)). cbn. exact IH.
Qed.

Lemma length_app a b :
  String.length (a +:+ b) = (String.length a + String.length b)%nat.
Proof.
  induction a as [|c r IH]; [reflexivity|].
  change (String c r +:+ b) with (String c (r +:+ b)). cbn. rewrite IH. reflexivity.
Qed.

Lemma parseKeyValue_label lbl v :
  Index lbl ": " < 0 -> TrimSpace lbl = lbl -> TrimSpace v = v ->
  parseKeyValue (lbl +:+ ": " +:+ v) = (lbl, v, true).
Proof.
  intros Hi Hl Hv. unfold parseKeyValue. cbv zeta.
  rewrite (Index_label lbl v Hi).
  destruct (Z.of_nat (String.length lbl) <? 0) eqn:E; [apply Z.ltb_lt in E; lia|].
  rewrite slice_to_app, Hl.
  replace (lbl +:+ ": " +:+ v) with ((lbl +:+ ": ") +:+ v) by apply append_assoc.
  replace (Z.of_nat (String.length lbl) + 2) with (Z.of_nat (String.length (lbl +:+ ": ")))
    by (rewrite length_app; cbn [String.length]; lia).
  rewrite slice_from_app, Hv. reflexivity.
Qed.

Lemma repoAssign_fields r kv :
  ProjectName (repoAssign r kv) =
    (if String.eqb (key kv) "Project Name" then value kv else ProjectName r) /\
  Description (repoAssign r kv) =
    (if String.eqb (key kv) "Description" then value kv else Description r) /\
  Private (repoAssign r kv) =
    (if String.eqb (key kv) "Private" then String.eqb (value kv) "true" else Private r) /\
  Hidden (repoAssign r kv) =
    (if String.eqb (key kv) "Hidden" then String.eqb (value kv) "true" else Hidden r) /\
  Mirror (repoAssign r kv) =
    (if String.eqb (key kv) "Mirror" then String.eqb (value kv) "true" else Mirror r) /\
  Owner (repoAssign r kv) =
    (if String.eqb (key kv) "Owner" then value kv else Owner r).
Proof.
  unfold repoAssign. destruct kv as [k v]. cbn [key value].
  destruct (String.eqb_spec k "Project Name") as [->|]; [repeat split|].
  destruct (String.eqb_spec k "Repository") as [->|]; [repeat split|].
  destruct (String.eqb_spec k "Description") as [->|]; [repeat split|].
  destruct (String.eqb_spec k "Private") as [->|]; [repeat split|].
  destruct (String.eqb_spec k "Hidden") as [->|]; [repeat split|].
  destruct (String.eqb_spec k "Mirror") as [->|]; [repeat split|].
  destruct (String.eqb_spec k "Owner") as [->|]; repeat split.
Qed.

Lemma repo_fold_fields kvs : forall r,
  let r' := fold_left repoAssign kvs r in
  ProjectName r' =
    match lastValue "Project Name" kvs with Some v => v | None => ProjectName r end /\
  Description r' =
    match lastValue "Description" kvs with Some v => v | None => Description r end /\
  Private r' =
    match lastValue "Private" kvs with
    | Some v => String.eqb v "true" | None => Private r end /\
  Hidden r' =
    match lastValue "Hidden" kvs with
    | Some v => String.eqb v "true" | None => Hidden r end /\
  Mirror r' =
    match lastValue "Mirror" kvs with
    | Some v => String.eqb v "true" | None => Mirror r end /\
  Owner r' =
    match lastValue "Owner" kvs with Some v => v | None => Owner r end.
Proof.
  induction kvs as [|kv rest IH]; intros r; cbn [fold_left lastValue].
  - repeat split.
  - destruct (IH (repoAssign r kv)) as (H1 & H2 & H3 & H4 & H5 & H6).
    destruct (repoAssign_fields r kv) as (A1 & A2 & A3 & A4 & A5 & A6).
    cbv zeta. rewrite H1, H2, H3, H4, H5, H6, A1, A2, A3, A4, A5, A6.
    repeat split.
    + destruct (lastValue "Project Name" rest); [reflexivity|].
      destruct (String.eqb (key kv) "Project Name"); reflexivity.
    + destruct (lastValue "Description" rest); [reflexivity|].
      destruct (String.eqb (key kv) "Description"); reflexivity.
    + destruct (lastValue "Private" rest); [reflexivity|].
      destruct (String.eqb (key kv) "Private"); reflexivity.
    + destruct (lastValue "Hidden" rest); [reflexivity|].
      destruct (String.eqb (key kv) "Hidden"); reflexivity.
    + destruct (lastValue "Mirror" rest); [reflexivity|].
      destruct (String.eqb (key kv) "Mirror"); reflexivity.
    + destruct (lastValue "Owner" rest); [reflexivity|].
      destruct (String.eqb (key kv) "Owner"); reflexivity.
Qed.


Lemma parseKeyValues_lines_app a b :
  parseKeyValues_lines (a ++ b) = parseKeyValues_lines a ++ parseKeyValues_lines b.
Proof.
  induction a as [|l r IH]; [reflexivity|].
  cbn [app parseKeyValues_lines]. destruct (parseKeyValue l) as [[k v] [|]].
  - rewrite IH. reflexivity.
  - exact IH.
Qed.

Lemma repoAssign_unknown r kv : knownLabel (key kv) = false -> repoAssign r kv = r.
Proof.
  unfold knownLabel, repoAssign. intros H.
  repeat (apply orb_false_elim in H; destruct H as [H ?]).
  repeat match goal with E : String.eqb _ _ = false |- _ => rewrite E; clear E end.
  reflexivity.
Qed.

Lemma ignored_fold lines : forall r,
  Forall (fun l => ignoredLine l = true) lines ->
  fold_left repoAssign (parseKeyValues_lines lines) r = r.
Proof.
  induction lines as [|l rest IH]; intros r H; [reflexivity|].
  inversion H as [|? ? Hl Hrest]; subst.
  cbn [parseKeyValues_lines]. unfold ignoredLine, labelOf in Hl.
  destruct (parseKeyValue l) as [[k v] [|]].
  - cbn [fold_left]. rewrite repoAssign_unknown.
    + apply IH. exact Hrest.
    + cbn [key]. destruct (knownLabel k); [discriminate|reflexivity].
  - apply IH. exact Hrest.
Qed.



Lemma noNewline_app a b : noNewline (a +:+ b) = noNewline a && noNewline b.
Proof.
  induction a as [|c r IH]; [reflexivity|].
  change (String c r +:+ b) with (String c (r +:+ b)). cbn [noNewline].
  rewrite IH, andb_assoc. reflexivity.
Qed.

Lemma cleanValue_spec v : cleanValue v = true -> noNewline v = true /\ TrimSpace v = v.
Proof.
  unfold cleanValue. intros H. apply andb_true_iff in H. destruct H as [H1 H2].
  split; [exact H1|]. apply String.eqb_eq. exact H2.
Qed.

Lemma showBool_true b : String.eqb (showBool b) "true" = b.
Proof. destruct b; reflexivity. Qed.

Lemma parseKeyValue_flag lbl b :
  Index lbl ": " < 0 -> TrimSpace lbl = lbl ->
  parseKeyValue (lbl +:+ ": " +:+ showBool b) = (lbl, showBool b, true).
Proof.
  intros Hi Hl. apply parseKeyValue_label; [exact Hi|exact Hl|].
  destruct b; reflexivity.
Qed.



Lemma clean_nonBlank k : k <> "" -> TrimSpace k = k -> nonBlank k = true.
Proof.
  intros Hne Ht. unfold nonBlank. destruct (allSpace k) eqn:E; [|reflexivity].
  apply TrimSpace_empty in E. congruence.
Qed.

Lemma indented_keys ks :
  Forall (fun k => k <> "" /\ cleanValue k = true) ks ->
  Forall (fun k => HasPrefix k "  " = true /\ nonBlank k = true)
    (map (fun k => "  " +:+ k) ks) /\
  map TrimSpace (map (fun k => "  " +:+ k) ks) = ks /\
  Forall (fun l => noNewline l = true) (map (fun k => "  " +:+ k) ks).
Proof.
  induction 1 as [|k r [Hne Hc] Hr (IH1 & IH2 & IH3)]; cbn [map].
  - repeat split; constructor.
  - apply cleanValue_spec in Hc. destruct Hc as [Hn Ht].
    assert (Et : TrimSpace ("  " +:+ k) = k) by (rewrite <- Ht at 2; reflexivity).
    repeat split.
    + constructor; [|exact IH1]. split; [apply HasPrefix_nil|].
      pose proof (clean_nonBlank k Hne Ht) as Hb. exact Hb.
    + rewrite Et, IH2. reflexivity.
    + constructor; [|exact IH3]. rewrite noNewline_app. exact Hn.
Qed.



Lemma isToken_cons c r :
  isToken (String c r) = negb (isSpace c) && noSpace r.
Proof. reflexivity. Qed.

Lemma Fields_tokens s : Forall (fun t => isToken t = true) (Fields s).
Proof.
  induction s as [|c r IH]; [constructor|].
  rewrite Fields_cons. destruct (isSpace c) eqn:Ec; [exact IH|].
  destruct r as [|c' r'].
  - constructor; [|constructor]. rewrite isToken_cons, Ec. reflexivity.
  - destruct (isSpace c') eqn:Ec'.
    + constructor; [|exact IH]. rewrite isToken_cons, Ec. reflexivity.
    + destruct (Fields (String c' r')) as [|h t].
      * constructor; [|constructor]. rewrite isToken_cons, Ec. reflexivity.
      * inversion IH as [|? ? Hh Ht]; subst. constructor; [|exact Ht].
        rewrite isToken_cons, Ec. cbn [negb andb].
        unfold isToken in Hh. apply andb_true_iff in Hh. tauto.
Qed.

(** X17: the entries of a parsed collaborator listing hold tokens: the
    user name is never empty and has no white space inside, and the
    access level has no white space inside. *)
Theorem ParseCollabList_tokens output :
  Forall (fun e => isToken (CUsername e) = true /\ noSpace (AccessLevel e) = true)
    (fst (ParseCollabList output)).
Proof.
  unfold ParseCollabList.
  destruct (String.eqb (TrimSpace output) ""); cbn [fst]; [constructor|].
  destruct (collab_fold (Split_nl output) []) as (es & -> & H).
  cbn [app]. induction H as [|line e lines es' He _ IH].
  - constructor.
  - destruct He as (tok & rest & Hf & Hu & Hl). constructor; [|exact IH].
    pose proof (Fields_tokens line) as Ht. rewrite Hf in Ht.
    inversion Ht as [|? ? Htok Hrest]; subst. split.
    + exact Htok.
    + rewrite Hl. destruct rest as [|t2 ?]; [reflexivity|].
      inversion Hrest as [|? ? H2 _]; subst.
      unfold isToken in H2. apply andb_true_iff in H2. tauto.
Qed.

Lemma Fields_token_sep u rest :
  isToken u = true -> Fields (u +:+ String " " rest) = u :: Fields rest.
Proof.
  induction u as [|c r IH]; [discriminate|].
  rewrite isToken_cons. intros H. apply andb_true_iff in H. destruct H as [Hc Hr].
  change (String c r +:+ String " " rest) with (String c (r +:+ String " " rest)).
  rewrite Fields_cons. destruct (isSpace c); [discriminate|].
  destruct r as [|c' r'].
  - change ("" +:+ String " " rest) with (String " " rest).
    change (isSpace " ") with true. cbv iota.
    rewrite Fields_cons. reflexivity.
  - change (String c' r' +:+ String " " rest) with (String c' (r' +:+ String " " rest)).
    cbn [noSpace] in Hr. pose proof Hr as Hr'.
    apply andb_true_iff in Hr'. destruct Hr' as [Hc' _].
    destruct (isSpace c') eqn:Ec'; [discriminate|].
    change (String c' (r' +:+ String " " rest))
      with (String c' r' +:+ String " " rest).
    rewrite IH; [reflexivity|]. rewrite isToken_cons, Ec'. exact Hr.
Qed.

Lemma Fields_token u : isToken u = true -> Fields u = [u].
Proof.
  induction u as [|c r IH]; [discriminate|].
  rewrite isToken_cons. intros H. apply andb_true_iff in H. destruct H as [Hc Hr].
  rewrite Fields_cons. destruct (isSpace c); [discriminate|].
  destruct r as [|c' r']; [reflexivity|].
  cbn [noSpace] in Hr. pose proof Hr as Hr'.
  apply andb_true_iff in Hr'. destruct Hr' as [Hc' _].
  destruct (isSpace c') eqn:Ec'; [discriminate|].
  rewrite IH; [reflexivity|]. rewrite isToken_cons, Ec'. exact Hr.
Qed.

Lemma noSpace_noNewline s : noSpace s = true -> noNewline s = true.
Proof.
  induction s as [|c r IH]; [reflexivity|]. cbn [noSpace noNewline].
  intros H. apply andb_true_iff in H. destruct H as [Hc Hr].
  rewrite (IH Hr), andb_true_r.
  destruct (Ascii.eqb_spec c nl) as [->|]; [discriminate Hc|reflexivity].
Qed.

Lemma renderCollab_Fields e :
  isToken (CUsername e) = true -> noSpace (AccessLevel e) = true ->
  Fields (renderCollab e) =
    CUsername e :: (if String.eqb (AccessLevel e) "" then [] else [AccessLevel e]) /\
  noNewline (renderCollab e) = true.
Proof.
  intros Hu Hl. unfold renderCollab.
  pose proof Hu as Hu'. unfold isToken in Hu'. apply andb_true_iff in Hu'.
  destruct Hu' as [_ Hus].
  destruct (String.eqb_spec (AccessLevel e) "") as [E|E].
  - split; [apply Fields_token; exact Hu|apply noSpace_noNewline; exact Hus].
  - change (CUsername e +:+ " " +:+ AccessLevel e)
      with (CUsername e +:+ String " " (AccessLevel e)).
    split.
    + rewrite (Fields_token_sep _ _ Hu). rewrite Fields_token; [reflexivity|].
      unfold isToken. rewrite Hl, andb_true_r.
      apply negb_true_iff. apply String.eqb_neq. exact E.
    + rewrite noNewline_app. cbn [noNewline].
      rewrite (noSpace_noNewline _ Hus), (noSpace_noNewline _ Hl). reflexivity.
Qed.

Lemma collabStep_render acc e :
  isToken (CUsername e) = true -> noSpace (AccessLevel e) = true ->
  collabStep acc (renderCollab e) = acc ++ [e].
Proof.
  intros Hu Hl. destruct (renderCollab_Fields e Hu Hl) as [Hf _].
  unfold collabStep. cbv zeta.
  pose proof (Fields_TrimSpace (renderCollab e)) as Ht.
  destruct (String.eqb_spec (TrimSpace (renderCollab e)) "") as [E|E].
  - rewrite E, Hf in Ht. discriminate Ht.
  - rewrite Ht, Hf. destruct e as [u l]. cbn [CUsername AccessLevel].
    destruct (String.eqb_spec l "") as [->|]; reflexivity.
Qed.



Lemma userKeyValue_admin st line :
  uAdmin (userKeyValue st line) =
  match lastValue "Admin" (parseKeyValues_lines [line]) with
  | Some v => String.eqb v "true"
  | None => uAdmin st
  end.
Proof.
  rewrite userKeyValue_spec. cbn [parseKeyValues_lines].
  destruct (parseKeyValue line) as [[k v] [|]]; cbn [uAdmin lastValue key value];
    [|reflexivity].
  destruct (String.eqb_spec k "Username") as [->|]; [reflexivity|].
  destruct (String.eqb k "Admin"); reflexivity.
Qed.

Lemma userLoop_admin lines : forall st,
  uAdmin (userLoop lines st) =
  match lastValue "Admin"
          (parseKeyValues_lines (labelLines (inPublicKeys st) lines)) with
  | Some v => String.eqb v "true"
  | None => uAdmin st
  end.
Proof.
  unfold userLoop.
  induction lines as [|l rest IH]; intros st; [reflexivity|].
  cbn [fold_left labelLines]. rewrite IH.
  destruct (inPublicKeys st) eqn:Hf.
  - rewrite (userStep_inSection _ _ Hf).
    destruct (closesSection l) eqn:Ec; cbn [andb negb].
    + rewrite lastValue_cons_line, userKeyValue_flag, userKeyValue_admin.
      cbn [inPublicKeys orb uAdmin].
      destruct (lastValue "Admin" (parseKeyValues_lines (labelLines (opensSection l) rest)));
        reflexivity.
    + reflexivity.
  - rewrite (userStep_outside _ _ Hf). cbn [andb].
    rewrite lastValue_cons_line, userKeyValue_flag, userKeyValue_admin, Hf.
    cbn [orb].
    destruct (lastValue "Admin" (parseKeyValues_lines (labelLines (opensSection l) rest)));
      reflexivity.
Qed.


End RoundTripFacts.

(** ** More on the construction of the client *)
Section ClientInvariants.
Import GoStrings ClientAuth AuthSpec.
Variables Signer Conn : Type.

Lemma resolveAgent_shape (env : AuthEnv Signer Conn) cfg conn auth :
  resolveAgent env cfg = inl (conn, auth) ->
  (conn = None /\ auth = None) \/
  (UseAgent cfg = true /\ exists cn a, conn = Some cn /\ auth = Some a).
Proof.
  unfold resolveAgent.
  destruct (UseAgent cfg); [|intros [= <- <-]; left; split; reflexivity].
  destruct (negb (String.eqb (SSH_AUTH_SOCK env) ""));
    [|intros [= <- <-]; left; split; reflexivity].
  destruct (Dial env (SSH_AUTH_SOCK env)) as [cn|e];
    [|intros [= <- <-]; left; split; reflexivity].
  destruct (negb (String.eqb (IdentityFile cfg) "")).
  - destruct (filteredAgentAuth env cn (IdentityFile cfg)) as [a|e]; [|discriminate].
    intros [= <- <-]. right. split; [reflexivity|]. eauto.
  - intros [= <- <-]. right. split; [reflexivity|]. eauto.
Qed.

(** X21: a client that NewClient builds carries the host, port and user
    name of its configuration unchanged, has at least one authentication
    method to offer, and holds an agent connection exactly when it holds
    the agent's authentication method; without a request for the agent
    it holds neither. *)
Theorem NewClient_invariants (env : AuthEnv Signer Conn) cfg c :
  NewClient env cfg = inl c ->
  host c = Host cfg /\ port c = Port cfg /\ username c = Username cfg /\
  authMethods c <> [] /\
  ((exists a, agentAuth c = Some a) <-> (exists conn, agentConn c = Some conn)) /\
  (UseAgent cfg = false -> agentConn c = None /\ agentAuth c = None).
Proof.
  unfold NewClient.
  destruct (resolveSigner env cfg) as [sg|e]; [|discriminate].
  destruct (resolveAgent env cfg) as [[conn auth]|e] eqn:Ea; [|discriminate].
  apply resolveAgent_shape in Ea.
  destruct Ea as [[-> ->]|(Hu & cn & a & -> & ->)].
  - destruct sg as [s|]; [|discriminate]. intros [= <-].
    cbn [host port username agentAuth agentConn]. repeat split; try discriminate.
    + intros [a H]. discriminate H.
    + intros [cn H]. discriminate H.
  - assert (H : forall c',
              c' = {| host := Host cfg; port := Port cfg; username := Username cfg;
                      signer := sg; agentConn := Some cn; agentAuth := Some a |} ->
              host c' = Host cfg /\ port c' = Port cfg /\ username c' = Username cfg /\
              authMethods c' <> [] /\
              ((exists a, agentAuth c' = Some a) <-> (exists conn, agentConn c' = Some conn)) /\
              (UseAgent cfg = false -> agentConn c' = None /\ agentAuth c' = None)).
    { intros c' ->. cbn [host port username agentAuth agentConn].
      repeat split; eauto; try congruence.
      unfold authMethods. cbn [signer agentAuth]. destruct sg; discriminate. }
    destruct sg as [s|]; intros [= <-]; apply H; reflexivity.
Qed.

(** X22: without a request for the agent, NewClient does not consult
    the agent's surroundings: the socket variable, the dialler, the
    agent's keys and the public-key parser may be anything, the result is
    the same. *)
Theorem NewClient_without_agent (env env' : AuthEnv Signer Conn) cfg :
  UseAgent cfg = false ->
  ParsePrivateKey env' = ParsePrivateKey env ->
  ReadFile env' = ReadFile env ->
  NewClient env' cfg = NewClient env cfg.
Proof.
  intros Hu Hp Hr. unfold NewClient, resolveSigner, resolveAgent.
  rewrite Hu, Hp, Hr. reflexivity.
Qed.

Lemma find_first {A} (f : A -> bool) l s :
  find f l = Some s ->
  exists pre post,
    l = pre ++ s :: post /\ f s = true /\ Forall (fun x => f x = false) pre.
Proof.
  induction l as [|x r IH]; cbn [find]; [discriminate|].
  destruct (f x) eqn:E.
  - intros [= <-]. exists [], r. repeat split; [exact E|constructor].
  - intros H. destruct (IH H) as (pre & post & -> & Hs & Hpre).
    exists (x :: pre), post. repeat split; [exact Hs|].
    constructor; [exact E|exact Hpre].
Qed.

Lemma find_none_all {A} (f : A -> bool) l :
  find f l = None -> Forall (fun x => f x = false) l.
Proof.
  induction l as [|x r IH]; cbn [find]; [constructor|].
  destruct (f x) eqn:E; [discriminate|].
  intros H. constructor; [exact E|exact (IH H)].
Qed.

(** X25: the authentication method filteredAgentAuth builds for an
    identity file asks the agent each time it is used.  An error of the
    agent passes through.  Otherwise it offers the first key in the
    agent's order whose public key is the one of the file, and that key
    alone; when the agent holds no such key it fails with an error that
    names the file. *)
Theorem filteredAgentAuth_offer (env : AuthEnv Signer Conn) conn file a :
  filteredAgentAuth env conn file = inl a ->
  exists data want,
    ReadFile env file = inl data /\
    ParseAuthorizedKey env data = inl want /\
    match Signers env conn with
    | inr e => offered a = inr e
    | inl held =>
        match offered a with
        | inl offer =>
            exists pre s post,
              held = pre ++ s :: post /\ offer = [s] /\ Marshal env s = want /\
              Forall (fun x => Marshal env x <> want) pre
        | inr e =>
            Forall (fun x => Marshal env x <> want) held /\
            e = Errorf ("identity file " +:+ file +:+
                        ": matching key not found in SSH agent")
        end
    end.
Proof.
  unfold filteredAgentAuth.
  destruct (ReadFile env file) as [data|e] eqn:Er; [|discriminate].
  destruct (ParseAuthorizedKey env data) as [want|e] eqn:Ep; [|discriminate].
  intros [= <-]. exists data, want. split; [reflexivity|]. split; [exact Ep|].
  cbn [offered]. destruct (Signers env conn) as [held|e]; [|reflexivity].
  destruct (find (fun s => String.eqb (Marshal env s) want) held) as [s|] eqn:Ef.
  - apply find_first in Ef. destruct Ef as (pre & post & -> & Hs & Hpre).
    exists pre, s, post. split; [reflexivity|]. split; [reflexivity|].
    split; [apply String.eqb_eq; exact Hs|].
    eapply Forall_impl; [exact Hpre|]. intros x Hx. apply String.eqb_neq. exact Hx.
  - apply find_none_all in Ef. split; [|reflexivity].
    eapply Forall_impl; [exact Ef|]. intros x Hx. apply String.eqb_neq. exact Hx.
Qed.

End ClientInvariants.

Section ClientInvariantsExamples.
Import GoStrings ClientAuth AuthSpec.

(** A client for the agent alone. *)
Lemma NewClient_invariants_witness :
  exists c,
    NewClient (sampleAuthEnv "/tmp/agent.sock") (sampleConfig "" true) = inl c /\
    host c = "localhost" /\ port c = 23231 /\ username c = "admin" /\
    authMethods c <> [].
Proof.
  eexists. split; [reflexivity|].
  pose proof (NewClient_invariants unit unit (sampleAuthEnv "/tmp/agent.sock")
                (sampleConfig "" true) _ eq_refl) as (H1 & H2 & H3 & H4 & _).
  exact (conj H1 (conj H2 (conj H3 H4))).
Defined.

(** A socket that is set makes no difference when the agent is not
    asked for. *)
Lemma NewClient_without_agent_witness :
  NewClient (sampleAuthEnv "/tmp/agent.sock") (sampleConfig "not-a-valid-key" false) =
  NewClient (sampleAuthEnv "") (sampleConfig "not-a-valid-key" false).
Proof.
  apply NewClient_without_agent; reflexivity.
Defined.

(** An agent holding three keys, the second and third with the public
    key of the identity file. *)
Lemma filteredAgentAuth_offer_witness :
  exists data want,
    ReadFile (identityAuthEnv "K2" ["K1"; "K2"; "K2"]) "id.pub" = inl data /\
    ParseAuthorizedKey (identityAuthEnv "K2" ["K1"; "K2"; "K2"]) data = inl want /\
    exists pre s post,
      ["K1"; "K2"; "K2"] = pre ++ s :: post /\ ["K2"] = [s] /\ s = want /\
      Forall (fun x => x <> want) pre.
Proof.
  destruct (filteredAgentAuth (identityAuthEnv "K2" ["K1"; "K2"; "K2"]) tt "id.pub")
    as [a|e] eqn:E; [|discriminate E].
  pose proof (filteredAgentAuth_offer string unit _ tt "id.pub" a E) as H.
  injection E as <-. exact H.
Defined.

End ClientInvariantsExamples.

(** ** The key sets of a user *)
Section KeySetFacts.
Import GoStrings Client ProviderSpec.

(** X23: the set toStringSet builds holds exactly the strings of the
    slice; duplicates collapse, so it has at most as many elements as
    the slice is long, and as many when the slice has no duplicates. *)
Theorem toStringSet_elements l :
  (forall k, k ∈ UserResource.toStringSet l <-> In k l) /\
  (size (UserResource.toStringSet l) <= List.length l)%nat /\
  (List.NoDup l -> size (UserResource.toStringSet l) = List.length l).
Proof.
  split; [intros k; apply toStringSet_In|].
  induction l as [|x r [IH1 IH2]]; cbn [UserResource.toStringSet List.length].
  - split; [rewrite size_empty; lia|]. intros _. apply size_empty.
  - split.
    + rewrite size_union_alt, size_singleton.
      assert (Hsub : UserResource.toStringSet r ∖ {[x]} ⊆ UserResource.toStringSet r).
      { apply subseteq_difference_l. reflexivity. }
      apply subseteq_size in Hsub. lia.
    + intros Hnd. inversion Hnd as [|? ? Hx Hr]; subst.
      rewrite size_union, size_singleton, (IH2 Hr); [reflexivity|].
      apply disjoint_singleton_l. rewrite toStringSet_In. exact Hx.
Qed.

(** A slice without repetition. *)
Lemma toStringSet_elements_witness :
  size (UserResource.toStringSet ["a"; "b"; "c"]) = 3%nat.
Proof.
  apply (proj2 (proj2 (toStringSet_elements ["a"; "b"; "c"]))).
  repeat constructor; cbn; intuition discriminate.
Defined.

End KeySetFacts.
